(** * TamburPlots: the CSV classification-and-aggregation pipeline

    A shallow embedding of the analysis scripts

    - [video_loss/video_loss.py]  ([generate_lpips_plot], 0% against 20% +/- 5%),
    - [video_loss/video_loss2.py] ([generate_lpips_plot], 0% against (0%, 5%]),
    - [lpips_token/lpips_token.py] ([classify_loss_rate]),

    followed by the properties of the pipeline they contain: header
    resolution, row ingestion with per-row diagnostics, classification of
    the loss fraction into tolerance bands and the per-video averages.

    Modelling conventions.
    - The input of [generate_lpips_plot] is the sequence of rows that
      [csv.reader] yields for the CSV text (the first one is the header);
      the CSV lexer itself belongs to the Python library.
    - A Python [float] is an exact rational, or an infinity, or NaN:
      binary64 rounding and overflow are not part of the model.
    - Strings are byte strings; white space is the ASCII white space of
      [str.isspace].
    - Every [print] appends one structured [message] to the standard
      output, which is threaded through the code as explicit state.
    - Rendering with matplotlib is outside the model: a run ends by
      handing the finished [plot_data] to the renderer. *)

From Stdlib Require Import Ascii.
From stdpp Require Import base option list gmap strings numbers.
From Stdlib Require Import QArith Qcanon Qcabs Lqa.

Close Scope Qc_scope.
Close Scope Q_scope.
Local Open Scope string_scope.
Local Open Scope list_scope.

(** ** Python floats *)

Inductive pyfloat : Type :=
  | Fin (q : Qc)
  | Inf (negative : bool)
  | NaN.

Definition qc (n : Z) (d : positive) : Qc := Q2Qc (n # d).

Definition float_zero : pyfloat := Fin (qc 0 1).

(** [x == y] *)
Definition float_eqb (x y : pyfloat) : bool :=
  match x, y with
  | Fin a, Fin b => bool_decide (a = b)
  | Inf s, Inf t => bool_decide (s = t)
  | _, _ => false
  end.

(** [x < y] *)
Definition float_ltb (x y : pyfloat) : bool :=
  match x, y with
  | Fin a, Fin b => bool_decide (a < b)%Qc
  | Fin _, Inf t => negb t
  | Inf s, Fin _ => s
  | Inf s, Inf t => s && negb t
  | _, _ => false
  end.

(** [x <= y] *)
Definition float_leb (x y : pyfloat) : bool :=
  match x, y with
  | Fin a, Fin b => bool_decide (a ≤ b)%Qc
  | Fin _, Inf t => negb t
  | Inf s, Fin _ => s
  | Inf s, Inf t => s || negb t
  | _, _ => false
  end.



(** [x + y] *)
Definition float_add (x y : pyfloat) : pyfloat :=
  match x, y with
  | Fin a, Fin b => Fin (a + b)%Qc
  | Fin _, Inf t => Inf t
  | Inf s, Fin _ => Inf s
  | Inf s, Inf t => if bool_decide (s = t) then Inf s else NaN
  | _, _ => NaN
  end.


(** Truth value of a number, as [any] tests it: everything but zero. *)
Definition float_truthy (x : pyfloat) : bool := negb (float_eqb x float_zero).

Definition float_sum (l : list pyfloat) : pyfloat :=
  fold_left float_add l float_zero.

(** [np.mean(l)]: the sum divided by the number of elements; NaN on the
    empty list. *)
Definition mean (l : list pyfloat) : pyfloat :=
  match l with
  | [] => NaN
  | _ :: _ =>
      match float_sum l with
      | Fin s => Fin (s / Q2Qc (inject_Z (Z.of_nat (length l))))%Qc
      | other => other
      end
  end.

(** ** Python strings *)

(** [str.isspace] on one ASCII character. *)
Definition is_space (c : ascii) : bool :=
  let n := nat_of_ascii c in
  (n =? 32)%nat || ((9 <=? n)%nat && (n <=? 13)%nat)
  || ((28 <=? n)%nat && (n <=? 31)%nat).

Fixpoint lstrip (s : string) : string :=
  match s with
  | String c s' => if is_space c then lstrip s' else s
  | EmptyString => EmptyString
  end.

Fixpoint rstrip (s : string) : string :=
  match s with
  | String c s' =>
      match rstrip s' with
      | EmptyString => if is_space c then EmptyString else String c EmptyString
      | r => String c r
      end
  | EmptyString => EmptyString
  end.

(** [s.strip()] *)
Definition strip (s : string) : string := rstrip (lstrip s).

Definition double_quote : ascii := ascii_of_nat 34.

(** [s.replace(q, '')] for the double-quote character [q]. *)
Fixpoint remove_quotes (s : string) : string :=
  match s with
  | String c s' =>
      if Ascii.eqb c double_quote then remove_quotes s'
      else String c (remove_quotes s')
  | EmptyString => EmptyString
  end.

Definition lower (c : ascii) : ascii :=
  let n := nat_of_ascii c in
  if (65 <=? n)%nat && (n <=? 90)%nat then ascii_of_nat (n + 32) else c.

Fixpoint lowercase (s : string) : string :=
  match s with
  | String c s' => String (lower c) (lowercase s')
  | EmptyString => EmptyString
  end.

(** ** [float(s)]: the grammar of the Python language reference

<<
    floatvalue  ::= [sign] (floatnumber | "inf" | "infinity" | "nan")
    floatnumber ::= number [exponent]
    number      ::= [digitpart] "." digitpart | digitpart ["."]
    exponent    ::= ("e" | "E") [sign] digitpart
    digitpart   ::= digit (["_"] digit)*
>>
    with surrounding white space removed and the special names matched
    without regard to case.  [None] stands for [ValueError]. *)

Definition digit_of (c : ascii) : option Z :=
  let n := nat_of_ascii c in
  if (48 <=? n)%nat && (n <=? 57)%nat then Some (Z.of_nat (n - 48)) else None.

Definition is_underscore (c : ascii) : bool := Ascii.eqb c "_"%char.

(** The rest of a [digitpart], after its first digit: the value read so
    far, the number of digits read, and the remaining input. *)
Fixpoint digits_tail (acc : Z) (n : nat) (s : string) : Z * nat * string :=
  match s with
  | String c s' =>
      match digit_of c with
      | Some d => digits_tail (10 * acc + d) (S n) s'
      | None =>
          if is_underscore c then
            match s' with
            | String c2 s'' =>
                match digit_of c2 with
                | Some d => digits_tail (10 * acc + d) (S n) s''
                | None => (acc, n, s)
                end
            | EmptyString => (acc, n, s)
            end
          else (acc, n, s)
      end
  | EmptyString => (acc, n, s)
  end.

Definition digitpart (s : string) : option (Z * nat * string) :=
  match s with
  | String c s' =>
      match digit_of c with
      | Some d => Some (digits_tail d 1 s')
      | None => None
      end
  | EmptyString => None
  end.

(** A sign, if there is one: whether it is a minus, and the rest. *)
Definition sign (s : string) : bool * string :=
  match s with
  | String c s' =>
      if Ascii.eqb c "-"%char then (true, s')
      else if Ascii.eqb c "+"%char then (false, s')
      else (false, s)
  | EmptyString => (false, s)
  end.

(** [number]: integer part, fraction digits as an integer, how many
    fraction digits, and the rest. *)
Definition number (s : string) : option (Z * Z * nat * string) :=
  match digitpart s with
  | Some (i, _, r) =>
      match r with
      | String c r' =>
          if Ascii.eqb c "."%char then
            match digitpart r' with
            | Some (f, k, r'') => Some (i, f, k, r'')
            | None => Some (i, 0%Z, 0%nat, r')
            end
          else Some (i, 0%Z, 0%nat, r)
      | EmptyString => Some (i, 0%Z, 0%nat, r)
      end
  | None =>
      match s with
      | String c r' =>
          if Ascii.eqb c "."%char then
            match digitpart r' with
            | Some (f, k, r'') => Some (0%Z, f, k, r'')
            | None => None
            end
          else None
      | EmptyString => None
      end
  end.

Definition exponent (s : string) : option (Z * string) :=
  match s with
  | String c r =>
      if Ascii.eqb (lower c) "e"%char then
        let '(neg, r1) := sign r in
        match digitpart r1 with
        | Some (e, _, r2) => Some (if neg then (- e)%Z else e, r2)
        | None => None
        end
      else None
  | EmptyString => None
  end.

(** The rational [m * 10 ^ e]. *)
Definition scale10 (m e : Z) : Qc :=
  match e with
  | Zneg p => Q2Qc (m # Pos.pow 10 p)
  | _ => Q2Qc (inject_Z (m * 10 ^ e))
  end.

Definition floatnumber (s : string) : option Qc :=
  match number s with
  | Some (i, f, k, r) =>
      let m := (i * 10 ^ Z.of_nat k + f)%Z in
      match r with
      | EmptyString => Some (scale10 m (- Z.of_nat k))
      | _ =>
          match exponent r with
          | Some (e, EmptyString) => Some (scale10 m (e - Z.of_nat k))
          | _ => None
          end
      end
  | None => None
  end.

Definition float (s : string) : option pyfloat :=
  let '(neg, body) := sign (strip s) in
  let name := lowercase body in
  if String.eqb name "inf" || String.eqb name "infinity" then Some (Inf neg)
  else if String.eqb name "nan" then Some NaN
  else
    match floatnumber body with
    | Some q => Some (Fin (if neg then (- q)%Qc else q))
    | None => None
    end.

(** ** The labels under the bars *)

(** [s.replace] of every ".mp4" by the empty string: [skip] counts the
    characters of a match that are still to be dropped. *)
Fixpoint remove_mp4 (skip : nat) (s : string) : string :=
  match s with
  | String c s' =>
      match skip with
      | S k => remove_mp4 k s'
      | O =>
          if String.prefix ".mp4" s then remove_mp4 3 s'
          else String c (remove_mp4 0 s')
      end
  | EmptyString => EmptyString
  end.

(** [s.split(sep)[-1]], with the field read so far in [acc]. *)
Fixpoint last_field (sep : ascii) (acc s : string) : string :=
  match s with
  | String c s' =>
      if Ascii.eqb c sep then last_field sep EmptyString s'
      else last_field sep (acc +:+ String c EmptyString) s'
  | EmptyString => acc
  end.

(** [s.split(sep)[0]] *)
Fixpoint first_field (sep : ascii) (s : string) : string :=
  match s with
  | String c s' =>
      if Ascii.eqb c sep then EmptyString else String c (first_field sep s')
  | EmptyString => EmptyString
  end.

(** ** Exceptions raised inside the [try] block of the row loop *)

Inductive exn : Type :=
  | IndexError
  | ValueError (arg : string).

Inductive result (A : Type) : Type :=
  | Ok (a : A)
  | Raise (e : exn).
Arguments Ok {A} a.
Arguments Raise {A} e.

#[global] Instance result_ret : MRet result := λ A a, Ok a.
#[global] Instance result_bind : MBind result := λ A B k m,
  match m with
  | Ok a => k a
  | Raise e => Raise e
  end.

(** [row[i]] *)
Definition getfield (row : list string) (i : nat) : result string :=
  match row !! i with
  | Some field => Ok field
  | None => Raise IndexError
  end.

(** [float(s)] with its [ValueError]. *)
Definition to_float (s : string) : result pyfloat :=
  match float s with
  | Some x => Ok x
  | None => Raise (ValueError s)
  end.

(** ** Standard output *)

(** The two bars of a video: exactly 0% loss, and the script's band. *)
Inductive condition : Type :=
  | Loss0
  | LossBand.

#[global] Instance condition_eq_dec : EqDecision condition.
Proof. solve_decision. Defined.

(** One constructor per [print] of the scripts, with the values that the
    format string interpolates:
    - [ErrorEmpty]: Error: CSV data is empty.
    - [ErrorHeader]: Error: CSV header does not contain required columns
    - [FoundHeader]: Found header: ...
    - [WarningFallback]: Warning: Using fallback column indices: ...
    - [WarningColumns]: Warning: Row ... has an unexpected number of
      columns. Skipping: ...
    - [WarningParse]: Warning: Could not parse data in row .... Error: ....
      Skipping: ...; of the text of the [ValueError], [e] keeps the string
      that [float] rejected
    - [InfoNoData]: Info: No data for ... with ... packet loss.
    - [ErrorNoData]: Error: No data found for the specified videos and
      packet loss conditions. Cannot generate plot. *)
Inductive message : Type :=
  | ErrorEmpty
  | ErrorHeader
  | FoundHeader (header : list string)
  | WarningFallback (lpips_col_idx avg_loss_col_idx video_col_idx : nat)
  | WarningColumns (line : nat) (row : list string)
  | WarningParse (line : nat) (e : string) (row : list string)
  | InfoNoData (video_name : string) (c : condition)
  | ErrorNoData.

Definition io (A : Type) : Type := list message → A * list message.

#[global] Instance io_ret : MRet io := λ A a out, (a, out).
#[global] Instance io_bind : MBind io := λ A B k m out,
  let '(a, out') := m out in k a out'.

Definition print (msg : message) : io unit := λ out, (tt, out ++ [msg]).

(** ** The pipeline of [generate_lpips_plot] *)

(** What the two video scripts differ in. *)
Record script : Type := {
  target_video_names : list string;
  second_band : pyfloat → bool;
  video_label : string → string;
}.

Record columns : Type := {
  lpips_col_idx : nat;
  avg_loss_col_idx : nat;
  video_col_idx : nat;
}.

(** The value of the [defaultdict]: one list per condition. *)
Record buckets : Type := {
  zero_loss : list pyfloat;
  band_loss : list pyfloat;
}.

Record plot_data : Type := {
  video_labels : list string;
  lpips_0_loss_avg : list pyfloat;
  lpips_band_loss_avg : list pyfloat;
}.

(** How a call of [generate_lpips_plot] ends. *)
Inductive outcome : Type :=
  | EmptyInput
  | NoData (plot : plot_data)
  | Plotted (plot : plot_data).

(** [l.index(x)]; [None] stands for [ValueError]. *)
Fixpoint index (x : string) (l : list string) : option nat :=
  match l with
  | [] => None
  | y :: l' => if String.eqb y x then Some 0 else S <$> index x l'
  end.

Definition fallback_columns : columns :=
  {| lpips_col_idx := 6; avg_loss_col_idx := 8; video_col_idx := 13 |}.

(** The [try] block around the three [header.index] calls: the first
    name that is absent raises, and the handler sets all three indices. *)
Definition resolve_columns (header : list string) : io columns :=
  match index "lpips" header, index "avg_packet_loss" header,
        index "video" header with
  | Some l, Some a, Some v =>
      mret {| lpips_col_idx := l; avg_loss_col_idx := a; video_col_idx := v |}
  | _, _, _ =>
      print ErrorHeader;;
      print (FoundHeader header);;
      let cols := fallback_columns in
      print (WarningFallback (lpips_col_idx cols) (avg_loss_col_idx cols)
               (video_col_idx cols));;
      mret cols
  end.

Definition new_buckets : buckets := {| zero_loss := []; band_loss := [] |}.

(** [parsed_data[video_name]]: a missing key reads as fresh empty lists
    (the key that [defaultdict] then stores is read back the same way). *)
Definition getitem (parsed_data : gmap string buckets) (video_name : string)
  : buckets :=
  default new_buckets (parsed_data !! video_name).

Definition bucket (c : condition) (b : buckets) : list pyfloat :=
  match c with
  | Loss0 => zero_loss b
  | LossBand => band_loss b
  end.

(** [parsed_data[video_name][c].append(lpips)] *)
Definition append (parsed_data : gmap string buckets) (video_name : string)
    (c : condition) (lpips : pyfloat) : gmap string buckets :=
  let b := getitem parsed_data video_name in
  let b' :=
    match c with
    | Loss0 => {| zero_loss := zero_loss b ++ [lpips]; band_loss := band_loss b |}
    | LossBand => {| zero_loss := zero_loss b; band_loss := band_loss b ++ [lpips] |}
    end in
  <[video_name := b']> parsed_data.

(** The [if]/[elif] on [avg_loss]; [None] when neither branch is taken. *)
Definition categorize (s : script) (avg_loss : pyfloat) : option condition :=
  if float_eqb avg_loss float_zero then Some Loss0
  else if second_band s avg_loss then Some LossBand
  else None.

(** The body of the [try] block. *)
Definition try_row (s : script) (cols : columns)
    (parsed_data : gmap string buckets) (row : list string)
  : result (gmap string buckets) :=
  field ← getfield row (video_col_idx cols);
  let video_name := remove_quotes (strip field) in
  if bool_decide (video_name ∈ target_video_names s) then
    lpips_str ← getfield row (lpips_col_idx cols);
    lpips ← to_float lpips_str;
    loss_field ← getfield row (avg_loss_col_idx cols);
    let avg_loss_str := remove_quotes (strip loss_field) in
    avg_loss ← to_float avg_loss_str;
    mret (match categorize s avg_loss with
          | Some c => append parsed_data video_name c lpips
          | None => parsed_data
          end)
  else mret parsed_data.

(** One iteration of the row loop; the messages name [row_number + 1].
    The last handler of the source, [except Exception], is never entered:
    indexing a list of strings and [float] of a string raise nothing but
    [IndexError] and [ValueError]. *)
Definition process_row (s : script) (cols : columns) (row_number : nat)
    (row : list string) (parsed_data : gmap string buckets)
  : io (gmap string buckets) :=
  match row with
  | [] => mret parsed_data
  | _ :: _ =>
      match try_row s cols parsed_data row with
      | Ok parsed_data' => mret parsed_data'
      | Raise IndexError =>
          print (WarningColumns (row_number + 1) row);; mret parsed_data
      | Raise (ValueError e) =>
          print (WarningParse (row_number + 1) e row);; mret parsed_data
      end
  end.

(** [for row_number, row in enumerate(reader, row_number)] *)
Fixpoint ingest_from (s : script) (cols : columns) (row_number : nat)
    (rows : list (list string)) (parsed_data : gmap string buckets)
  : io (gmap string buckets) :=
  match rows with
  | [] => mret parsed_data
  | row :: rows' =>
      parsed_data' ← process_row s cols row_number row parsed_data;
      ingest_from s cols (S row_number) rows' parsed_data'
  end.

Definition ingest (s : script) (cols : columns) (rows : list (list string))
  : io (gmap string buckets) :=
  ingest_from s cols 1 rows ∅.

(** The average of one bar: [np.mean] of the values, or 0 with a note. *)
Definition average (video_name : string) (c : condition)
    (data : list pyfloat) : io pyfloat :=
  match data with
  | [] => print (InfoNoData video_name c);; mret float_zero
  | _ :: _ => mret (mean data)
  end.

Definition aggregate_video (s : script) (parsed_data : gmap string buckets)
    (plot : plot_data) (video_name : string) : io plot_data :=
  avg_0 ← average video_name Loss0 (zero_loss (getitem parsed_data video_name));
  avg_band ← average video_name LossBand
                (band_loss (getitem parsed_data video_name));
  mret {| video_labels := video_labels plot ++ [video_label s video_name];
          lpips_0_loss_avg := lpips_0_loss_avg plot ++ [avg_0];
          lpips_band_loss_avg := lpips_band_loss_avg plot ++ [avg_band] |}.

(** [for video_name in target_video_names] *)
Fixpoint aggregate_loop (s : script) (parsed_data : gmap string buckets)
    (names : list string) (plot : plot_data) : io plot_data :=
  match names with
  | [] => mret plot
  | video_name :: names' =>
      plot' ← aggregate_video s parsed_data plot video_name;
      aggregate_loop s parsed_data names' plot'
  end.

Definition empty_plot : plot_data :=
  {| video_labels := []; lpips_0_loss_avg := []; lpips_band_loss_avg := [] |}.

Definition aggregate (s : script) (parsed_data : gmap string buckets)
  : io plot_data :=
  aggregate_loop s parsed_data (target_video_names s) empty_plot.

(** [any(l)] *)
Definition any (l : list pyfloat) : bool := existsb float_truthy l.

Definition generate_lpips_plot (s : script) (reader : list (list string))
  : io outcome :=
  match reader with
  | [] => print ErrorEmpty;; mret EmptyInput
  | header :: rows =>
      cols ← resolve_columns header;
      parsed_data ← ingest s cols rows;
      plot ← aggregate s parsed_data;
      if negb (any (lpips_0_loss_avg plot))
         && negb (any (lpips_band_loss_avg plot))
      then print ErrorNoData;; mret (NoData plot)
      else mret (Plotted plot)
  end.

(** The standard output is empty when a script starts. *)
Definition run {A : Type} (m : io A) : A * list message := m [].

(** ** [video_loss.py] *)

Module VideoLoss.

Definition target_video_names : list string :=
  ["video-0.mp4"; "video-1.mp4"; "video-2.mp4";
   "video-4.mp4"; "video-5.mp4"; "video-6.mp4";
   "video-7.mp4"; "video-9.mp4"].

(** [0.15 <= avg_loss <= 0.25] *)
Definition second_band (avg_loss : pyfloat) : bool :=
  float_leb (Fin (qc 15 100)) avg_loss && float_leb avg_loss (Fin (qc 25 100)).

Definition video_label (video_name : string) : string :=
  "Video" +:+ last_field "-" EmptyString (remove_mp4 0 video_name).

Definition config : script :=
  Build_script target_video_names second_band video_label.

Definition generate_lpips_plot : list (list string) → io outcome :=
  generate_lpips_plot config.

End VideoLoss.

(** ** [video_loss2.py] *)

Module VideoLoss2.

Definition target_video_indices : list nat := seq 0 9.

Definition digit_string (i : nat) : string :=
  String (ascii_of_nat (48 + i)) EmptyString.

(** The indices are below 10, so each is written with one digit. *)
Definition target_video_names : list string :=
  (λ i, "video-" +:+ digit_string i +:+ ".mp4") <$> target_video_indices.

(** [0.0 < avg_loss <= 0.05] *)
Definition second_band (avg_loss : pyfloat) : bool :=
  float_ltb float_zero avg_loss && float_leb avg_loss (Fin (qc 5 100)).

Definition video_label (video_name : string) : string :=
  "Video " +:+ first_field "." (last_field "-" EmptyString video_name).

Definition config : script :=
  Build_script target_video_names second_band video_label.

Definition generate_lpips_plot : list (list string) → io outcome :=
  generate_lpips_plot config.

End VideoLoss2.

(** ** [lpips_token.py] *)

Module LpipsToken.


End LpipsToken.

(** ** Notions used to state the properties *)

#[global] Instance pyfloat_eq_dec : EqDecision pyfloat.
Proof. solve_decision. Defined.
#[global] Instance message_eq_dec : EqDecision message.
Proof. solve_decision. Defined.
#[global] Instance plot_data_eq_dec : EqDecision plot_data.
Proof. solve_decision. Defined.
#[global] Instance outcome_eq_dec : EqDecision outcome.
Proof. solve_decision. Defined.
#[global] Instance columns_eq_dec : EqDecision columns.
Proof. solve_decision. Defined.

(** The missing-value sentinel that the comment of the script mentions
    ([np.nan]). *)
Definition missing : pyfloat := NaN.

(** The bars of one condition, in the order of [target_video_names]. *)
Definition bars (c : condition) (plot : plot_data) : list pyfloat :=
  match c with
  | Loss0 => lpips_0_loss_avg plot
  | LossBand => lpips_band_loss_avg plot
  end.

(** The height of the bar of [(video_name, c)], read off the buckets. *)
Definition bar (parsed_data : gmap string buckets) (c : condition)
    (video_name : string) : pyfloat :=
  let data := bucket c (getitem parsed_data video_name) in
  match data with
  | [] => float_zero
  | _ :: _ => mean data
  end.

Definition note (parsed_data : gmap string buckets) (c : condition)
    (video_name : string) : list message :=
  match bucket c (getitem parsed_data video_name) with
  | [] => [InfoNoData video_name c]
  | _ :: _ => []
  end.

Definition notes (parsed_data : gmap string buckets) (video_name : string)
  : list message :=
  note parsed_data Loss0 video_name ++ note parsed_data LossBand video_name.

(** The groups of interest of the worked example of the specification,
    with the band and the labels of [video_loss.py]. *)
Definition two_videos : script :=
  Build_script ["video-0.mp4"; "video-1.mp4"]
    VideoLoss.second_band VideoLoss.video_label.

Definition example_table : list (list string) :=
  [ ["video"; "avg_packet_loss"; "lpips"];
    ["video-0.mp4"; "0.0"; "0.10"];
    ["video-0.mp4"; "0.20"; "0.30"];
    ["video-1.mp4"; "0.0"; "0.15"] ].

(** The three fields of a row, as the loop reads them. *)
Definition clean (field : string) : string := remove_quotes (strip field).

Definition row_group (cols : columns) (row : list string) : option string :=
  clean <$> row !! video_col_idx cols.

Definition row_metric (cols : columns) (row : list string) : option pyfloat :=
  row !! lpips_col_idx cols ≫= float.

Definition row_loss (cols : columns) (row : list string) : option pyfloat :=
  row !! avg_loss_col_idx cols ≫= λ field, float (clean field).

(** The metric value that a row contributes to the key [(video_name, c)]:
    its group is [video_name], a group of interest, its loss fraction is
    classified as [c], and its metric is a number. *)
Definition contribution (s : script) (cols : columns) (video_name : string)
    (c : condition) (row : list string) : option pyfloat :=
  if bool_decide (row_group cols row = Some video_name
                  ∧ video_name ∈ target_video_names s
                  ∧ row_loss cols row ≫= categorize s = Some c)
  then row_metric cols row
  else None.

Definition contributions (s : script) (cols : columns) (video_name : string)
    (c : condition) (rows : list (list string)) : list pyfloat :=
  omap (contribution s cols video_name c) rows.

(** A valid row: it contributes a value to some key. *)
Definition valid (s : script) (cols : columns) (row : list string) : Prop :=
  ∃ video_name c x, contribution s cols video_name c row = Some x.

(** A malformed row of a group of interest: its metric field, or else its
    loss field, is there but is not a number; [e] is the rejected text. *)
Definition malformed (s : script) (cols : columns) (row : list string)
    (e : string) : Prop :=
  ∃ video_name lpips_str,
    row_group cols row = Some video_name
    ∧ video_name ∈ target_video_names s
    ∧ row !! lpips_col_idx cols = Some lpips_str
    ∧ ((float lpips_str = None ∧ e = lpips_str)
       ∨ (is_Some (float lpips_str)
          ∧ ∃ loss_field,
              row !! avg_loss_col_idx cols = Some loss_field
              ∧ float (clean loss_field) = None
              ∧ e = clean loss_field)).

(** [tally s cols rows good bad]: the rows are [good] valid rows and [bad]
    malformed rows, in any order. *)
Inductive tally (s : script) (cols : columns)
  : list (list string) → nat → nat → Prop :=
  | tally_nil : tally s cols [] 0 0
  | tally_valid row rows good bad :
      valid s cols row → tally s cols rows good bad →
      tally s cols (row :: rows) (S good) bad
  | tally_malformed row e rows good bad :
      malformed s cols row e → tally s cols rows good bad →
      tally s cols (row :: rows) good (S bad).

(** The number of metric values held in the buckets. *)
Definition held (b : buckets) : nat :=
  length (zero_loss b) + length (band_loss b).

Definition total (parsed_data : gmap string buckets) : nat :=
  map_fold (λ _ b n, held b + n) 0 parsed_data.

Definition is_parse_warning (msg : message) : Prop :=
  match msg with
  | WarningParse _ _ _ => True
  | _ => False
  end.

(** The columns that the row loop uses for a header. *)
Definition columns_of (header : list string) : columns :=
  (run (resolve_columns header)).1.

(** The table handed to the renderer, when the run gets that far. *)
Definition plot_of (r : outcome) : option plot_data :=
  match r with
  | EmptyInput => None
  | NoData plot | Plotted plot => Some plot
  end.

(** A computation that only appends to the standard output, and whose
    result and messages do not depend on what was printed before. *)
Definition appends {A : Type} (m : io A) : Prop :=
  ∀ out, m out = ((run m).1, out ++ (run m).2).

Definition fallback_messages (header : list string) : list message :=
  [ErrorHeader; FoundHeader header; WarningFallback 6 8 13].

(** Ten rows of groups of interest, eight valid and two malformed (a
    metric that is not a number, a loss fraction that is not a number). *)
Definition ten_rows : list (list string) :=
  [ ["video-0.mp4"; "0.0"; "0.10"];
    ["video-0.mp4"; "0.20"; "0.30"];
    ["video-1.mp4"; "0.0"; "n/a"];
    ["video-1.mp4"; "0.0"; "0.15"];
    ["video-1.mp4"; "0.18"; "0.35"];
    ["video-2.mp4"; "0.0"; "0.12"];
    ["video-2.mp4"; "lost"; "0.40"];
    ["video-2.mp4"; "0.25"; "0.41"];
    ["video-4.mp4"; "0.0"; "0.09"];
    ["video-4.mp4"; "0.15"; "0.33"] ].

(** Ten rows again, the two malformed ones now of video-3.mp4, which
    [video_loss.py] does not plot. *)
Definition ten_rows_other_group : list (list string) :=
  [ ["video-0.mp4"; "0.0"; "0.10"];
    ["video-0.mp4"; "0.20"; "0.30"];
    ["video-3.mp4"; "0.0"; "n/a"];
    ["video-1.mp4"; "0.0"; "0.15"];
    ["video-1.mp4"; "0.18"; "0.35"];
    ["video-2.mp4"; "0.0"; "0.12"];
    ["video-3.mp4"; "lost"; "0.40"];
    ["video-2.mp4"; "0.25"; "0.41"];
    ["video-4.mp4"; "0.0"; "0.09"];
    ["video-4.mp4"; "0.15"; "0.33"] ].

Definition named_columns : columns :=
  {| lpips_col_idx := 2; avg_loss_col_idx := 1; video_col_idx := 0 |}.

(** A table whose header lacks [avg_packet_loss] and whose only data row
    has the metric, the loss fraction and the video name at the positions
    6, 8 and 13. *)
Definition table_without_loss_column : list (list string) :=
  [ ["video"; "lpips"];
    ["a"; "b"; "c"; "d"; "e"; "f"; "0.5"; "h"; "0.0"; "j"; "k"; "l"; "m";
     "video-0.mp4"] ].

(** Two data rows and no header row. *)
Definition table_without_header : list (list string) :=
  [ ["video-0.mp4"; "0.0"; "0.10"];
    ["video-0.mp4"; "0.20"; "0.30"] ].

Definition required_columns (header : list string) : Prop :=
  "lpips" ∈ header ∧ "avg_packet_loss" ∈ header ∧ "video" ∈ header.


(** ** Further notions: the rows that the loop rejects or passes over *)

(** A row that raises [IndexError]: it is not empty but has no field at the
    video column, or it is of a group of interest and lacks the metric
    column, or its metric is a number and it lacks the loss column. *)
Definition too_short (s : script) (cols : columns) (row : list string)
  : Prop :=
  row ≠ []
  ∧ (row !! video_col_idx cols = None
     ∨ ∃ video_name,
         row_group cols row = Some video_name
         ∧ video_name ∈ target_video_names s
         ∧ (row !! lpips_col_idx cols = None
            ∨ (is_Some (row_metric cols row)
               ∧ row !! avg_loss_col_idx cols = None))).

(** A row of a group of interest whose fields are all numbers but whose
    loss fraction is in neither band. *)
Definition out_of_band (s : script) (cols : columns) (row : list string)
  : Prop :=
  ∃ video_name lpips avg_loss,
    row_group cols row = Some video_name
    ∧ video_name ∈ target_video_names s
    ∧ row_metric cols row = Some lpips
    ∧ row_loss cols row = Some avg_loss
    ∧ categorize s avg_loss = None.

(** A row of a group that is not of interest. *)
Definition other_group (s : script) (cols : columns) (row : list string)
  : Prop :=
  ∃ video_name,
    row_group cols row = Some video_name
    ∧ video_name ∉ target_video_names s.

(** The height of the bar of a key, read off the rows of the table. *)
Definition height (s : script) (cols : columns) (rows : list (list string))
    (video_name : string) (c : condition) : pyfloat :=
  let data := contributions s cols video_name c rows in
  match data with
  | [] => float_zero
  | _ :: _ => mean data
  end.

(** The table of bars of a run, read off the rows. *)
Definition table_plot (s : script) (cols : columns)
    (rows : list (list string)) : plot_data :=
  {| video_labels := video_label s <$> target_video_names s;
     lpips_0_loss_avg :=
       (λ video_name, height s cols rows video_name Loss0)
         <$> target_video_names s;
     lpips_band_loss_avg :=
       (λ video_name, height s cols rows video_name LossBand)
         <$> target_video_names s |}.

(** The test before the plot: no bar has a truth value. *)
Definition all_zero (plot : plot_data) : bool :=
  negb (any (lpips_0_loss_avg plot)) && negb (any (lpips_band_loss_avg plot)).

(** The notes of a run, read off the rows. *)
Definition table_notes (s : script) (cols : columns)
    (rows : list (list string)) : list message :=
  target_video_names s ≫= λ video_name,
    (if bool_decide (contributions s cols video_name Loss0 rows = [])
     then [InfoNoData video_name Loss0] else [])
    ++ (if bool_decide (contributions s cols video_name LossBand rows = [])
        then [InfoNoData video_name LossBand] else []).

(** The message that the row loop prints for a row read at [line]: a
    parse warning for a malformed row, a column warning for a short one. *)
Definition row_messages (s : script) (cols : columns) (line : nat)
    (row : list string) (msg : message) : Prop :=
  (∃ e, malformed s cols row e ∧ msg = WarningParse line e row)
  ∨ (too_short s cols row ∧ msg = WarningColumns line row).

(** ** [lpips_token.py]: the choice of the token numbers to plot

    The two values that pandas computes from the data frame are taken as
    given: [token_values_sorted], the sorted distinct token numbers of the
    rows with a label, and [token_20_set], the token numbers of the rows
    labelled 20%.  Of the set only membership and the minimum are used, so
    a list of its elements stands for it.  Token numbers are integers. *)

Module TokenSelection.

(** The exceptions that end the script. *)
Inductive raised : Type :=
  | IndexError
  | ValueError.

(** [np.linspace(0, n - 1, 9, dtype=int)]: nine evenly spaced positions,
    rounded down.  For [n = 0] numpy's positions are 0 and then negative
    ones; only the first is ever used, since it is already outside the
    empty list. *)
Definition linspace (n : nat) : list nat :=
  (λ i, i * (n - 1) / 8) <$> seq 0 9.

(** [[token_values_sorted[i] for i in positions]]; [None] stands for the
    [IndexError] of a position outside the list. *)
Fixpoint comprehension (token_values_sorted : list Z) (positions : list nat)
  : option (list Z) :=
  match positions with
  | [] => Some []
  | i :: positions' =>
      token ← token_values_sorted !! i;
      tokens ← comprehension token_values_sorted positions';
      Some (token :: tokens)
  end.

(** [l.remove(x)] for an [x] that is in [l]: the first occurrence goes. *)
Fixpoint remove (x : Z) (l : list Z) : list Z :=
  match l with
  | [] => []
  | y :: l' => if bool_decide (y = x) then l' else y :: remove x l'
  end.

(** [min(l)]; [None] stands for the [ValueError] of an empty argument. *)
Definition min (l : list Z) : option Z :=
  match l with
  | [] => None
  | x :: l' => Some (foldr Z.min x l')
  end.

(** Steps 3 and 4 of the script, up to the final [selected_tokens]. *)
Definition selected_tokens (token_values_sorted token_20_set : list Z)
  : raised + list Z :=
  match comprehension token_values_sorted
          (linspace (length token_values_sorted)) with
  | None => inl IndexError
  | Some all_tokens =>
      let all_tokens :=
        if bool_decide (384%Z ∈ all_tokens)
           && negb (bool_decide (384%Z ∈ token_20_set))
        then remove 384 all_tokens
        else all_tokens in
      let selected_tokens := take 8 all_tokens in
      match min token_20_set with
      | None => inl ValueError
      | Some lowest_with_20 =>
          inr (if bool_decide (lowest_with_20 ∈ selected_tokens)
               then selected_tokens
               else lowest_with_20 :: selected_tokens)
      end
  end.

End TokenSelection.

(** * Properties *)

(** ** The model on small inputs *)

Example float_decimal : float " 0.20 " = Some (Fin (qc 1 5)).
Proof. compute_done. Qed.

Example float_exponent : float "-1.5e-2" = Some (Fin (qc (-3) 200)).
Proof. compute_done. Qed.

Example float_underscore : float "1_000.2_5" = Some (Fin (qc 4001 4)).
Proof. compute_done. Qed.

Example float_special : float "-Infinity" = Some (Inf true) ∧ float "NaN" = Some NaN.
Proof. split; reflexivity. Qed.

Example float_rejects :
  float <$> ["abc"; EmptyString; "."; "1e"; "1__0"; "0x10"; "1 2"]
  = replicate 7 None.
Proof. reflexivity. Qed.

Example clean_quoted :
  clean (" " +:+ String double_quote "video-0.mp4" +:+ String double_quote " ")
  = "video-0.mp4".
Proof. reflexivity. Qed.

Example mean_of_three :
  mean [Fin (qc 1 1); Fin (qc 2 1); Fin (qc 3 1)] = Fin (qc 2 1).
Proof. compute_done. Qed.

Example labels :
  VideoLoss.video_label "video-4.mp4" = "Video4"
  ∧ VideoLoss2.video_label "video-4.mp4" = "Video 4".
Proof. split; reflexivity. Qed.

Example target_video_names_2 :
  VideoLoss2.target_video_names
  = ["video-0.mp4"; "video-1.mp4"; "video-2.mp4"; "video-3.mp4";
     "video-4.mp4"; "video-5.mp4"; "video-6.mp4"; "video-7.mp4";
     "video-8.mp4"].
Proof. reflexivity. Qed.

Example row_numbers_in_warnings :
  (run (ingest VideoLoss.config named_columns
          [ ["video-0.mp4"; "0.0"; "0.10"]; [];
            ["video-0.mp4"; "0.0"; "abc"]; ["video-0.mp4"] ])).2
  = [ WarningParse 4 "abc" ["video-0.mp4"; "0.0"; "abc"];
      WarningColumns 5 ["video-0.mp4"] ].
Proof. reflexivity. Qed.

(** ** The standard output only grows *)

Lemma io_bind_eq {A B} (m : io A) (k : A → io B) out :
  (m ≫= k) out = let '(a, out') := m out in k a out'.
Proof. reflexivity. Qed.

Lemma appends_ret {A} (a : A) : appends (mret a : io A).
Proof. intros out. unfold run. simpl. by rewrite app_nil_r. Qed.

Lemma appends_print msg : appends (print msg).
Proof. intros out. reflexivity. Qed.

Lemma appends_bind {A B} (m : io A) (k : A → io B) :
  appends m → (∀ a, appends (k a)) → appends (m ≫= k).
Proof.
  intros Hm Hk out. unfold run. rewrite !io_bind_eq.
  rewrite (Hm out). unfold run.
  destruct (m []) as [a e1]. simpl.
  rewrite (Hk a (out ++ e1)), (Hk a e1). simpl.
  by rewrite app_assoc.
Qed.

Ltac solve_appends :=
  repeat first
    [ apply appends_ret | apply appends_print
    | apply appends_bind; [|intros ?] ].

Lemma resolve_columns_appends header : appends (resolve_columns header).
Proof.
  unfold resolve_columns.
  destruct (index "lpips" header), (index "avg_packet_loss" header),
    (index "video" header); solve_appends.
Qed.

Lemma process_row_appends s cols row_number row parsed_data :
  appends (process_row s cols row_number row parsed_data).
Proof.
  unfold process_row. destruct row; [solve_appends|].
  destruct (try_row _ _ _ _) as [?|[|?]]; solve_appends.
Qed.

Lemma ingest_from_appends s cols rows row_number parsed_data :
  appends (ingest_from s cols row_number rows parsed_data).
Proof.
  revert row_number parsed_data.
  induction rows as [|row rows IH]; intros row_number parsed_data; simpl.
  - solve_appends.
  - apply appends_bind; [apply process_row_appends|]. intros ?. apply IH.
Qed.

Lemma ingest_appends s cols rows : appends (ingest s cols rows).
Proof. apply ingest_from_appends. Qed.

(** ** Aggregation *)

Lemma average_spec parsed_data c video_name out :
  average video_name c (bucket c (getitem parsed_data video_name)) out
  = (bar parsed_data c video_name, out ++ note parsed_data c video_name).
Proof.
  unfold average, bar, note.
  destruct (bucket c (getitem parsed_data video_name)).
  - reflexivity.
  - unfold mret, io_ret. by rewrite app_nil_r.
Qed.

Lemma aggregate_video_spec s parsed_data plot video_name out :
  aggregate_video s parsed_data plot video_name out
  = ({| video_labels := video_labels plot ++ [video_label s video_name];
        lpips_0_loss_avg :=
          lpips_0_loss_avg plot ++ [bar parsed_data Loss0 video_name];
        lpips_band_loss_avg :=
          lpips_band_loss_avg plot ++ [bar parsed_data LossBand video_name] |},
     out ++ notes parsed_data video_name).
Proof.
  unfold aggregate_video. rewrite io_bind_eq.
  rewrite (average_spec parsed_data Loss0). rewrite io_bind_eq.
  rewrite (average_spec parsed_data LossBand).
  unfold notes. by rewrite app_assoc.
Qed.

Lemma aggregate_loop_spec s parsed_data names plot out :
  aggregate_loop s parsed_data names plot out
  = ({| video_labels := video_labels plot ++ (video_label s <$> names);
        lpips_0_loss_avg :=
          lpips_0_loss_avg plot ++ (bar parsed_data Loss0 <$> names);
        lpips_band_loss_avg :=
          lpips_band_loss_avg plot ++ (bar parsed_data LossBand <$> names) |},
     out ++ (names ≫= notes parsed_data)).
Proof.
  revert plot out. induction names as [|video_name names IH]; intros plot out.
  - simpl. rewrite !app_nil_r. by destruct plot.
  - simpl. rewrite io_bind_eq, aggregate_video_spec, IH. simpl.
    by rewrite <- !app_assoc.
Qed.

Lemma aggregate_spec s parsed_data out :
  aggregate s parsed_data out
  = ({| video_labels := video_label s <$> target_video_names s;
        lpips_0_loss_avg := bar parsed_data Loss0 <$> target_video_names s;
        lpips_band_loss_avg :=
          bar parsed_data LossBand <$> target_video_names s |},
     out ++ (target_video_names s ≫= notes parsed_data)).
Proof. unfold aggregate. by rewrite aggregate_loop_spec. Qed.

Lemma aggregate_appends s parsed_data : appends (aggregate s parsed_data).
Proof. intros out. unfold run. by rewrite !aggregate_spec. Qed.

Lemma bars_aggregate s parsed_data out c :
  bars c (aggregate s parsed_data out).1
  = bar parsed_data c <$> target_video_names s.
Proof. rewrite aggregate_spec. by destruct c. Qed.

(** C1, as the code has it: a key without values is drawn as a bar of
    height 0, and one informational note names its video and condition. *)
Theorem zero_rows_reported_as_zero (s : script)
    (parsed_data : gmap string buckets) (out : list message)
    (i : nat) (video_name : string) (c : condition) :
  target_video_names s !! i = Some video_name →
  bucket c (getitem parsed_data video_name) = [] →
  ∃ plot emitted,
    aggregate s parsed_data out = (plot, out ++ emitted)
    ∧ bars c plot !! i = Some float_zero
    ∧ InfoNoData video_name c ∈ emitted.
Proof.
  intros Hi Hempty. eexists _, _. split; [apply aggregate_spec|]. split.
  - pose proof (bars_aggregate s parsed_data out c) as Hb.
    rewrite aggregate_spec in Hb. simpl in Hb. rewrite Hb.
    rewrite list_lookup_fmap, Hi. simpl. unfold bar. by rewrite Hempty.
  - apply list_elem_of_bind. exists video_name. split.
    + unfold notes, note. destruct c; rewrite Hempty; set_solver.
    + by eapply list_elem_of_lookup_2.
Qed.

Lemma zero_rows_reported_as_zero_witness :
  ∃ plot emitted,
    aggregate VideoLoss.config ∅ [] = (plot, [] ++ emitted)
    ∧ bars LossBand plot !! 1%nat = Some float_zero
    ∧ InfoNoData "video-1.mp4" LossBand ∈ emitted.
Proof.
  apply (zero_rows_reported_as_zero VideoLoss.config ∅ [] 1 "video-1.mp4"
           LossBand); reflexivity.
Defined.

(** C1, as the specification states it, fails: with no row at all for
    video-0.mp4 the script reports the number 0, not the missing value. *)
Lemma zero_rows_not_missing :
  bucket Loss0 (getitem (∅ : gmap string buckets) "video-0.mp4") = []
  ∧ VideoLoss.target_video_names !! 0%nat = Some "video-0.mp4"
  ∧ bars Loss0 (run (aggregate VideoLoss.config ∅)).1 !! 0%nat
    = Some float_zero
  ∧ bars Loss0 (run (aggregate VideoLoss.config ∅)).1 !! 0%nat
    ≠ Some missing.
Proof. repeat split; compute_done. Qed.

(** ** Ingestion *)

Lemma getitem_append parsed_data video_name c lpips video_name' c' :
  bucket c' (getitem (append parsed_data video_name c lpips) video_name')
  = bucket c' (getitem parsed_data video_name')
    ++ (if bool_decide (video_name = video_name' ∧ c = c') then [lpips] else []).
Proof.
  unfold append, getitem.
  destruct (decide (video_name = video_name')) as [<-|Hne].
  - rewrite lookup_insert_eq.
    destruct c, c'; simpl; case_bool_decide as H;
      rewrite ?app_nil_r; try reflexivity;
      try (destruct H as [_ H]; discriminate H);
      destruct H; done.
  - rewrite lookup_insert_ne by done.
    rewrite bool_decide_eq_false_2 by (intros [? _]; done).
    by rewrite app_nil_r.
Qed.

(** What one iteration of the row loop does, read off the fields. *)
Lemma process_row_bucket s cols row_number row parsed_data out video_name c :
  bucket c (getitem (process_row s cols row_number row parsed_data out).1
              video_name)
  = bucket c (getitem parsed_data video_name)
    ++ option_list (contribution s cols video_name c row).
Proof.
  unfold process_row, contribution, row_group, row_metric, row_loss, clean.
  destruct row as [|field0 row0]; [by rewrite app_nil_r|].
  set (row := field0 :: row0).
  unfold try_row, getfield, to_float.
  destruct (row !! video_col_idx cols) as [field|]; simpl;
    [|by rewrite app_nil_r].
  case_bool_decide as Htarget; simpl.
  - destruct (row !! lpips_col_idx cols) as [lpips_str|]; simpl;
      [|case_bool_decide; simpl; by rewrite app_nil_r].
    destruct (float lpips_str) as [lpips|]; simpl;
      [|case_bool_decide; simpl; by rewrite app_nil_r].
    destruct (row !! avg_loss_col_idx cols) as [loss_field|]; simpl;
      [|rewrite bool_decide_eq_false_2 by (intros (_ & _ & ?); done);
        simpl; by rewrite app_nil_r].
    destruct (float (remove_quotes (strip loss_field))) as [avg_loss|]; simpl;
      [|rewrite bool_decide_eq_false_2 by (intros (_ & _ & ?); done);
        simpl; by rewrite app_nil_r].
    destruct (categorize s avg_loss) as [c'|]; simpl.
    + rewrite getitem_append.
      case_bool_decide as H1; case_bool_decide as H2; simpl; try done.
      * destruct H1 as [? ?]; subst. destruct H2. done.
      * destruct H2 as (H2 & _ & H3). destruct H1. split; congruence.
    + rewrite bool_decide_eq_false_2 by (intros (_ & _ & ?); done).
      simpl; by rewrite app_nil_r.
  - rewrite bool_decide_eq_false_2; [simpl; by rewrite app_nil_r|].
    intros (H1 & H2 & _). congruence.
Qed.

Lemma ingest_from_bucket s cols rows row_number parsed_data out video_name c :
  bucket c (getitem (ingest_from s cols row_number rows parsed_data out).1
              video_name)
  = bucket c (getitem parsed_data video_name)
    ++ contributions s cols video_name c rows.
Proof.
  revert row_number parsed_data out.
  induction rows as [|row rows IH]; intros row_number parsed_data out.
  - simpl. by rewrite app_nil_r.
  - simpl. rewrite io_bind_eq.
    pose proof (process_row_bucket s cols row_number row parsed_data out
                  video_name c) as Hrow.
    destruct (process_row s cols row_number row parsed_data out)
      as [parsed_data' out'].
    rewrite IH. simpl in Hrow. rewrite Hrow, <- app_assoc. f_equal.
    unfold contributions. simpl.
    by destruct (contribution s cols video_name c row).
Qed.

Lemma ingest_bucket s cols rows out video_name c :
  bucket c (getitem (ingest s cols rows out).1 video_name)
  = contributions s cols video_name c rows.
Proof.
  unfold ingest. rewrite ingest_from_bucket.
  unfold getitem. rewrite lookup_empty. by destruct c.
Qed.

Lemma ingest_from_app s cols pre rest row_number parsed_data out :
  ingest_from s cols row_number (pre ++ rest) parsed_data out
  = let '(parsed_data1, out1) :=
      ingest_from s cols row_number pre parsed_data out in
    ingest_from s cols (row_number + length pre) rest parsed_data1 out1.
Proof.
  revert row_number parsed_data out.
  induction pre as [|row pre IH]; intros row_number parsed_data out; simpl.
  - by rewrite Nat.add_0_r.
  - rewrite !io_bind_eq.
    destruct (process_row s cols row_number row parsed_data out)
      as [parsed_data' out'].
    rewrite IH. by rewrite Nat.add_succ_r.
Qed.

Lemma process_row_other_group s cols row_number row parsed_data out video_name :
  row_group cols row = Some video_name →
  video_name ∉ target_video_names s →
  process_row s cols row_number row parsed_data out = (parsed_data, out).
Proof.
  unfold row_group, clean, process_row. intros Hgroup Hother.
  destruct row as [|field0 row0]; [done|].
  unfold try_row, getfield.
  destruct ((field0 :: row0) !! video_col_idx cols) as [field|];
    simpl in *; [|done].
  injection Hgroup as ->. by rewrite bool_decide_eq_false_2.
Qed.

Lemma process_row_malformed s cols row_number row e parsed_data out :
  malformed s cols row e →
  process_row s cols row_number row parsed_data out
  = (parsed_data, out ++ [WarningParse (row_number + 1) e row]).
Proof.
  unfold malformed, row_group, clean, process_row.
  intros (video_name & lpips_str & Hgroup & Htarget & Hlpips & Hbad).
  destruct row as [|field0 row0]; [done|].
  unfold try_row, getfield, to_float.
  destruct ((field0 :: row0) !! video_col_idx cols) as [field|];
    simpl in *; [|done].
  injection Hgroup as <-. rewrite bool_decide_eq_true_2 by done.
  rewrite Hlpips. simpl.
  destruct Hbad as [[Hnone ->]|([lpips Hsome] & loss_field & Hloss & Hnone & ->)].
  - by rewrite Hnone.
  - rewrite Hsome. simpl. rewrite Hloss. simpl. by rewrite Hnone.
Qed.

Lemma process_row_valid s cols row_number row parsed_data out :
  valid s cols row →
  ∃ video_name c x,
    process_row s cols row_number row parsed_data out
    = (append parsed_data video_name c x, out).
Proof.
  unfold valid, contribution, row_group, row_metric, row_loss, clean.
  intros (video_name & c & x & Hx). exists video_name, c, x.
  case_bool_decide as H; [|done]. destruct H as (Hgroup & Htarget & Hcond).
  unfold process_row. destruct row as [|field0 row0]; [done|].
  unfold try_row, getfield, to_float.
  destruct ((field0 :: row0) !! video_col_idx cols) as [field|];
    simpl in *; [|done].
  injection Hgroup as <-. rewrite bool_decide_eq_true_2 by done.
  destruct ((field0 :: row0) !! lpips_col_idx cols) as [lpips_str|];
    simpl in *; [|done].
  rewrite Hx. simpl.
  destruct ((field0 :: row0) !! avg_loss_col_idx cols) as [loss_field|];
    simpl in *; [|done].
  destruct (float (remove_quotes (strip loss_field))) as [avg_loss|];
    simpl in *; [|done].
  by rewrite Hcond.
Qed.

(** ** Whole runs *)


(** The table of a run on a non-empty input is the aggregate of what the
    row loop ingested under the columns of the header. *)
Lemma generate_lpips_plot_plot s header rows out :
  plot_of (generate_lpips_plot s (header :: rows) out).1
  = Some (run (aggregate s (run (ingest s (columns_of header) rows)).1)).1.
Proof.
  unfold generate_lpips_plot. rewrite io_bind_eq.
  rewrite (resolve_columns_appends header out). fold (columns_of header).
  rewrite io_bind_eq, (ingest_appends s _ rows _).
  rewrite io_bind_eq, (aggregate_appends s _ _).
  by destruct (_ && _).
Qed.

(** A key to which no row of the table contributes is drawn with
    height 0. *)
Lemma key_without_rows_is_zero s header rows out i video_name c :
  target_video_names s !! i = Some video_name →
  contributions s (columns_of header) video_name c rows = [] →
  ∃ plot,
    plot_of (generate_lpips_plot s (header :: rows) out).1 = Some plot
    ∧ bars c plot !! i = Some float_zero.
Proof.
  intros Hi Hnone. eexists. split; [apply generate_lpips_plot_plot|].
  unfold run. rewrite bars_aggregate, list_lookup_fmap, Hi. simpl.
  unfold bar. by rewrite ingest_bucket, Hnone.
Qed.




(** C9: a row of a group that is not of interest is dropped before its
    metric and loss fields are looked at: whatever these fields hold, the
    row changes neither the buckets nor the output, and the whole run is
    the same as with any other such row in its place. *)
Theorem rows_of_other_groups_are_skipped (s : script) (header : list string)
    (pre post : list (list string)) (row row' : list string)
    (video_name video_name' : string) :
  row_group (columns_of header) row = Some video_name →
  video_name ∉ target_video_names s →
  row_group (columns_of header) row' = Some video_name' →
  video_name' ∉ target_video_names s →
  (∀ row_number parsed_data out,
     process_row s (columns_of header) row_number row parsed_data out
     = (parsed_data, out))
  ∧ ∀ out,
      generate_lpips_plot s (header :: pre ++ row :: post) out
      = generate_lpips_plot s (header :: pre ++ row' :: post) out.
Proof.
  intros Hg Hother Hg' Hother'. split.
  - intros. by eapply process_row_other_group.
  - intros out. unfold generate_lpips_plot. rewrite !io_bind_eq.
    rewrite (resolve_columns_appends header out). fold (columns_of header).
    rewrite !io_bind_eq. unfold ingest. rewrite !ingest_from_app.
    destruct (ingest_from _ _ _ pre _ _) as [parsed_data1 out1]. simpl.
    rewrite !io_bind_eq.
    rewrite (process_row_other_group _ _ _ row _ _ _ Hg Hother).
    by rewrite (process_row_other_group _ _ _ row' _ _ _ Hg' Hother').
Qed.

Lemma rows_of_other_groups_are_skipped_witness :
  (∀ row_number parsed_data out,
     process_row VideoLoss.config
       (columns_of ["video"; "avg_packet_loss"; "lpips"]) row_number
       ["video-3.mp4"; "n/a"; "broken"] parsed_data out
     = (parsed_data, out))
  ∧ ∀ out,
      generate_lpips_plot VideoLoss.config
        (["video"; "avg_packet_loss"; "lpips"]
         :: [["video-0.mp4"; "0.0"; "0.10"]]
            ++ ["video-3.mp4"; "n/a"; "broken"]
            :: [["video-1.mp4"; "0.2"; "0.30"]]) out
      = generate_lpips_plot VideoLoss.config
          (["video"; "avg_packet_loss"; "lpips"]
           :: [["video-0.mp4"; "0.0"; "0.10"]]
              ++ ["video-3.mp4"; "0.0"; "0.25"]
              :: [["video-1.mp4"; "0.2"; "0.30"]]) out.
Proof.
  apply (rows_of_other_groups_are_skipped VideoLoss.config
           ["video"; "avg_packet_loss"; "lpips"]
           [["video-0.mp4"; "0.0"; "0.10"]] [["video-1.mp4"; "0.2"; "0.30"]]
           ["video-3.mp4"; "n/a"; "broken"] ["video-3.mp4"; "0.0"; "0.25"]
           "video-3.mp4" "video-3.mp4");
    first [reflexivity | compute_done].
Defined.

(** ** Counting what was ingested *)

Lemma total_insert_fresh (parsed_data : gmap string buckets) video_name b :
  parsed_data !! video_name = None →
  total (<[video_name := b]> parsed_data) = held b + total parsed_data.
Proof.
  intros Hfresh. unfold total.
  rewrite map_fold_insert_L; [done| |done]. intros. lia.
Qed.

Lemma total_insert (parsed_data : gmap string buckets) video_name b :
  total (<[video_name := b]> parsed_data) + held (getitem parsed_data video_name)
  = held b + total parsed_data.
Proof.
  unfold getitem.
  destruct (parsed_data !! video_name) as [b0|] eqn:Hlookup; simpl.
  - rewrite <- (insert_delete_eq parsed_data).
    rewrite total_insert_fresh by apply lookup_delete_eq.
    unfold total at 2.
    rewrite (map_fold_delete_L _ _ video_name b0 parsed_data);
      [|intros; lia|done].
    fold (total (delete video_name parsed_data)). lia.
  - rewrite total_insert_fresh by done. unfold held. simpl. lia.
Qed.

Lemma total_append parsed_data video_name c lpips :
  total (append parsed_data video_name c lpips) = S (total parsed_data).
Proof.
  unfold append.
  pose proof (total_insert parsed_data video_name) as H.
  destruct c; match goal with |- total (<[_ := ?b]> _) = _ =>
    specialize (H b) end;
    unfold held in *; simpl in *; rewrite length_app in H; simpl in H; lia.
Qed.

Lemma ingest_from_tally s cols rows good bad :
  tally s cols rows good bad →
  ∀ row_number parsed_data out,
  ∃ emitted,
    total (ingest_from s cols row_number rows parsed_data out).1
    = total parsed_data + good
    ∧ (ingest_from s cols row_number rows parsed_data out).2 = out ++ emitted
    ∧ length emitted = bad
    ∧ Forall is_parse_warning emitted.
Proof.
  induction 1 as [|row rows good bad Hvalid _ IH|row e rows good bad Hbad _ IH];
    intros row_number parsed_data out; simpl.
  - exists []. rewrite app_nil_r. repeat split; [lia|constructor].
  - rewrite io_bind_eq.
    destruct (process_row_valid s cols row_number row parsed_data out Hvalid)
      as (video_name & c & x & ->).
    destruct (IH (S row_number) (append parsed_data video_name c x) out)
      as (emitted & Htotal & Hout & Hlen & Hall).
    exists emitted. rewrite Htotal, total_append. repeat split; [lia|done..].
  - rewrite io_bind_eq, (process_row_malformed _ _ _ _ e) by done.
    destruct (IH (S row_number) parsed_data
                (out ++ [WarningParse (row_number + 1) e row]))
      as (emitted & Htotal & Hout & Hlen & Hall).
    exists (WarningParse (row_number + 1) e row :: emitted).
    rewrite Htotal, Hout, <- app_assoc. simpl.
    repeat split; [lia|by constructor].
Qed.

(** C5, as the code has it: a malformed row of a group of interest never
    stops the run.  It leaves the buckets as they are and prints one parse
    warning with its line number, and the rows after it are processed as
    usual; eight valid and two malformed rows give eight ingested values
    and two warnings, in general [good] values and [bad] warnings. *)
Theorem malformed_rows_are_skipped (s : script) (cols : columns) :
  (∀ row e pre post row_number parsed_data out,
     malformed s cols row e →
     ingest_from s cols row_number (pre ++ row :: post) parsed_data out
     = let '(parsed_data1, out1) :=
         ingest_from s cols row_number pre parsed_data out in
       ingest_from s cols (S (row_number + length pre)) post parsed_data1
         (out1 ++ [WarningParse (row_number + length pre + 1) e row]))
  ∧ (∀ rows good bad,
       tally s cols rows good bad →
       ∃ warnings,
         total (run (ingest s cols rows)).1 = good
         ∧ (run (ingest s cols rows)).2 = warnings
         ∧ length warnings = bad
         ∧ Forall is_parse_warning warnings).
Proof.
  split.
  - intros row e pre post row_number parsed_data out Hbad.
    rewrite ingest_from_app.
    destruct (ingest_from s cols row_number pre parsed_data out)
      as [parsed_data1 out1].
    simpl. rewrite io_bind_eq. by rewrite (process_row_malformed _ _ _ _ e).
  - intros rows good bad Htally.
    destruct (ingest_from_tally s cols rows good bad Htally 1 ∅ [])
      as (emitted & Htotal & Hout & Hlen & Hall).
    exists emitted. split; [|by repeat split].
    unfold run, ingest. rewrite Htotal. unfold total.
    by rewrite map_fold_empty.
Qed.

Ltac valid_row video_name c :=
  apply tally_valid; [exists video_name, c; eexists; reflexivity|].

Ltac malformed_row video_name field :=
  eapply tally_malformed;
  [exists video_name, field;
   split; [reflexivity|]; split; [compute_done|]; split; [reflexivity|] |].

Lemma ten_rows_tally : tally VideoLoss.config named_columns ten_rows 8 2.
Proof.
  unfold ten_rows.
  valid_row "video-0.mp4" Loss0.
  valid_row "video-0.mp4" LossBand.
  malformed_row "video-1.mp4" "n/a"; [left; split; reflexivity|].
  valid_row "video-1.mp4" Loss0.
  valid_row "video-1.mp4" LossBand.
  valid_row "video-2.mp4" Loss0.
  malformed_row "video-2.mp4" "0.40";
    [right; split; [by eexists|]; exists "lost"; repeat split; reflexivity|].
  valid_row "video-2.mp4" LossBand.
  valid_row "video-4.mp4" Loss0.
  valid_row "video-4.mp4" LossBand.
  apply tally_nil.
Defined.

Lemma malformed_rows_are_skipped_witness :
  ∃ warnings,
    total (run (ingest VideoLoss.config named_columns ten_rows)).1 = 8
    ∧ (run (ingest VideoLoss.config named_columns ten_rows)).2 = warnings
    ∧ length warnings = 2
    ∧ Forall is_parse_warning warnings.
Proof.
  destruct (malformed_rows_are_skipped VideoLoss.config named_columns)
    as [_ Hcount].
  exact (Hcount ten_rows 8 2 ten_rows_tally).
Defined.

(** C5, as the specification states it, fails: the two malformed rows of
    [ten_rows_other_group] are of a group that is not of interest; they are
    dropped without a warning, so ten rows with two malformed rows give
    eight ingested values and no warning at all. *)
Lemma malformed_rows_of_other_groups_unreported :
  length ten_rows_other_group = 10
  ∧ ten_rows_other_group !! 2%nat = Some ["video-3.mp4"; "0.0"; "n/a"]
  ∧ float "n/a" = None
  ∧ ten_rows_other_group !! 6%nat = Some ["video-3.mp4"; "lost"; "0.40"]
  ∧ float "lost" = None
  ∧ total (run (ingest VideoLoss.config named_columns ten_rows_other_group)).1
    = 8
  ∧ (run (ingest VideoLoss.config named_columns ten_rows_other_group)).2 = [].
Proof. repeat split; compute_done. Qed.

(** ** Tolerance bands *)





Lemma categorize_finite (q : Qc) :
  categorize VideoLoss.config (Fin q)
  = if bool_decide (q = qc 0 1) then Some Loss0
    else if bool_decide (qc 15 100 ≤ q ∧ q ≤ qc 25 100)%Qc then Some LossBand
    else None.
Proof.
  unfold categorize. simpl. case_bool_decide; [done|].
  unfold VideoLoss.second_band. simpl.
  repeat case_bool_decide; simpl; tauto.
Qed.

(** The band of video_loss2.py: 0% exactly at 0.0, and (0, 0.05]. *)
Lemma categorize_2_finite (q : Qc) :
  categorize VideoLoss2.config (Fin q)
  = if bool_decide (q = qc 0 1) then Some Loss0
    else if bool_decide (qc 0 1 < q ∧ q ≤ qc 5 100)%Qc then Some LossBand
    else None.
Proof.
  unfold categorize. simpl. case_bool_decide; [done|].
  unfold VideoLoss2.second_band. simpl.
  repeat case_bool_decide; simpl; tauto.
Qed.



(** ** Header resolution *)

Lemma index_None x l : index x l = None ↔ x ∉ l.
Proof.
  induction l as [|y l IH]; simpl.
  - split; [intros _; apply not_elem_of_nil|done].
  - destruct (String.eqb_spec y x) as [->|Hne].
    + split; [done|]. intros H. destruct H. left.
    + rewrite fmap_None, IH, not_elem_of_cons. split; [by intros ?|by intros [_ ?]].
Qed.

Lemma index_Some x l i : index x l = Some i → l !! i = Some x.
Proof.
  revert i. induction l as [|y l IH]; intros i; simpl; [done|].
  destruct (String.eqb_spec y x) as [->|Hne].
  - by intros [= <-].
  - destruct (index x l) as [j|]; simpl; [|done].
    intros [= <-]. by apply IH.
Qed.

Lemma resolve_columns_fallback header out :
  ¬ required_columns header →
  resolve_columns header out
  = (fallback_columns, out ++ fallback_messages header).
Proof.
  unfold required_columns, resolve_columns. intros Hmissing.
  destruct (index "lpips" header) eqn:Hl;
    destruct (index "avg_packet_loss" header) eqn:Ha;
    destruct (index "video" header) eqn:Hv;
    try (cbv [mbind io_bind print mret io_ret fallback_messages
              fallback_columns lpips_col_idx avg_loss_col_idx video_col_idx];
         by rewrite <- !app_assoc).
  destruct Hmissing. repeat split; apply dec_stable; rewrite <- index_None;
    congruence.
Qed.

(** C10: the fall-back is all or nothing.  As soon as one of the three
    names is absent from the header, all three columns are the fixed
    positions 6, 8 and 13, also for the names that the header has. *)
Theorem fallback_is_all_or_nothing (header : list string)
    (out : list message) :
  "lpips" ∉ header ∨ "avg_packet_loss" ∉ header ∨ "video" ∉ header →
  (resolve_columns header out).1
  = {| lpips_col_idx := 6; avg_loss_col_idx := 8; video_col_idx := 13 |}.
Proof.
  intros Hmissing. rewrite resolve_columns_fallback; [done|].
  unfold required_columns. tauto.
Qed.

Lemma fallback_is_all_or_nothing_witness :
  index "video" ["video"; "avg_packet_loss"; "score"] = Some 0
  ∧ index "avg_packet_loss" ["video"; "avg_packet_loss"; "score"] = Some 1
  ∧ (resolve_columns ["video"; "avg_packet_loss"; "score"] []).1
    = {| lpips_col_idx := 6; avg_loss_col_idx := 8; video_col_idx := 13 |}.
Proof.
  split; [reflexivity|]. split; [reflexivity|].
  apply (fallback_is_all_or_nothing ["video"; "avg_packet_loss"; "score"] []).
  left. compute_done.
Defined.

(** C4, as the code has it: a header that lacks a required name never
    makes the run fail.  The fixed positions 6, 8 and 13 are built into the
    script; it prints an error line, the header it found and a warning that
    names the positions, and goes on to ingest and aggregate the rows under
    these positions. *)
Theorem header_fallback_is_logged (s : script) (header : list string)
    (rows : list (list string)) (out : list message) :
  "lpips" ∉ header ∨ "avg_packet_loss" ∉ header ∨ "video" ∉ header →
  ∃ r emitted,
    generate_lpips_plot s (header :: rows) out
    = (r, out ++ [ErrorHeader; FoundHeader header; WarningFallback 6 8 13]
            ++ emitted)
    ∧ plot_of r
      = Some (run (aggregate s (run (ingest s fallback_columns rows)).1)).1.
Proof.
  intros Hmissing.
  assert (¬ required_columns header) as Hnot
    by (unfold required_columns; tauto).
  assert (columns_of header = fallback_columns) as Hcols
    by (unfold columns_of, run; by rewrite resolve_columns_fallback).
  pose proof (generate_lpips_plot_plot s header rows out) as Hplot.
  rewrite Hcols in Hplot.
  destruct (generate_lpips_plot s (header :: rows) out) as [r out'] eqn:Hrun.
  exists r. simpl in Hplot.
  unfold generate_lpips_plot in Hrun.
  rewrite io_bind_eq, (resolve_columns_fallback header out Hnot) in Hrun.
  rewrite io_bind_eq, (ingest_appends s fallback_columns rows _) in Hrun.
  rewrite io_bind_eq, (aggregate_appends s _ _) in Hrun.
  unfold fallback_messages in Hrun.
  destruct (_ && _); injection Hrun as <- <-; eexists; (split; [|done]);
    f_equal; unfold print; rewrite <- !app_assoc; simpl; reflexivity.
Qed.

Lemma header_fallback_is_logged_witness :
  ∃ r emitted,
    generate_lpips_plot VideoLoss.config table_without_loss_column []
    = (r, [] ++ [ErrorHeader; FoundHeader ["video"; "lpips"];
                 WarningFallback 6 8 13] ++ emitted)
    ∧ plot_of r
      = Some (run (aggregate VideoLoss.config
                     (run (ingest VideoLoss.config fallback_columns
                             (tail table_without_loss_column))).1)).1.
Proof.
  apply (header_fallback_is_logged VideoLoss.config ["video"; "lpips"]
           (tail table_without_loss_column) []).
  right. left. compute_done.
Defined.

(** C4, as the specification states it, fails: the header of
    [table_without_loss_column] lacks [avg_packet_loss], and
    [generate_lpips_plot] has no parameter through which a caller could
    supply positions; the run does not fail but plots the value found at
    position 6 of the data row. *)
Lemma missing_column_does_not_fail :
  ("avg_packet_loss" ∉ ["video"; "lpips"])
  ∧ ((run (VideoLoss.generate_lpips_plot table_without_loss_column)).1
     ≠ EmptyInput)
  ∧ plot_of (run (VideoLoss.generate_lpips_plot table_without_loss_column)).1
    ≫= (λ plot, bars Loss0 plot !! 0%nat) = Some (Fin (qc 1 2)).
Proof. repeat split; compute_done. Qed.

(** ** Empty input *)

(** C6, as the code has it: on an input without any row the script prints
    that the CSV data is empty and returns at once, before the row loop
    and the averages.  Any other input, with a header row or not, is not
    rejected: its first row is taken as the header, and the remaining rows
    are ingested and aggregated. *)
Theorem empty_input_fails_fast (s : script) (out : list message) :
  generate_lpips_plot s [] out = (EmptyInput, out ++ [ErrorEmpty])
  ∧ ∀ header rows,
      (generate_lpips_plot s (header :: rows) out).1 ≠ EmptyInput
      ∧ plot_of (generate_lpips_plot s (header :: rows) out).1
        = Some (run (aggregate s
                       (run (ingest s (columns_of header) rows)).1)).1.
Proof.
  split; [reflexivity|]. intros header rows.
  pose proof (generate_lpips_plot_plot s header rows out) as Hplot.
  split; [|done]. intros Hempty. by rewrite Hempty in Hplot.
Qed.

(** C6, as the specification states it, fails on an input without a
    header row: the first data row is consumed as the header, the positions
    fall back to 6, 8 and 13, and the averages are computed (all of them 0
    here, with one note per bar). *)
Lemma headerless_input_is_not_rejected :
  (run (VideoLoss.generate_lpips_plot table_without_header)).1
  = NoData
      {| video_labels :=
           ["Video0"; "Video1"; "Video2"; "Video4"; "Video5"; "Video6";
            "Video7"; "Video9"];
         lpips_0_loss_avg := replicate 8 float_zero;
         lpips_band_loss_avg := replicate 8 float_zero |}
  ∧ (ErrorEmpty ∉ (run (VideoLoss.generate_lpips_plot table_without_header)).2)
  ∧ (InfoNoData "video-0.mp4" Loss0
     ∈ (run (VideoLoss.generate_lpips_plot table_without_header)).2).
Proof. repeat split; compute_done. Qed.

(** ** The worked example *)

(** C3, as the code has it: on the table of the specification the three
    keys with rows get 0.10, 0.30 and 0.15, and the key without rows,
    (video-1.mp4, 20%), gets the number 0 and an informational note.  With
    the eight videos that video_loss.py itself plots, the first two bars
    are the same and the six other videos get 0 for both conditions. *)
Theorem worked_example :
  run (generate_lpips_plot two_videos example_table)
  = (Plotted
       {| video_labels := ["Video0"; "Video1"];
          lpips_0_loss_avg := [Fin (qc 10 100); Fin (qc 15 100)];
          lpips_band_loss_avg := [Fin (qc 30 100); float_zero] |},
     [InfoNoData "video-1.mp4" LossBand])
  ∧ plot_of (run (VideoLoss.generate_lpips_plot example_table)).1
    = Some
        {| video_labels :=
             ["Video0"; "Video1"; "Video2"; "Video4"; "Video5"; "Video6";
              "Video7"; "Video9"];
           lpips_0_loss_avg :=
             [Fin (qc 10 100); Fin (qc 15 100)] ++ replicate 6 float_zero;
           lpips_band_loss_avg :=
             [Fin (qc 30 100); float_zero] ++ replicate 6 float_zero |}.
Proof. split; compute_done. Qed.

(** C3, as the specification states it, fails on its last key: the bar of
    (video-1.mp4, 20%) is the number 0, not the missing value. *)
Lemma worked_example_has_no_missing_value :
  bars LossBand
    (default empty_plot
       (plot_of (run (generate_lpips_plot two_videos example_table)).1))
    !! 1%nat = Some float_zero
  ∧ float_zero ≠ missing.
Proof. split; compute_done. Qed.

(** * Further properties of the scripts *)

(** ** One iteration of the row loop, case by case *)

Lemma process_row_cases s cols row_number row parsed_data out :
  (process_row s cols row_number row parsed_data out = (parsed_data, out)
   ∧ (row = [] ∨ other_group s cols row ∨ out_of_band s cols row))
  ∨ (∃ video_name c x,
       contribution s cols video_name c row = Some x
       ∧ process_row s cols row_number row parsed_data out
         = (append parsed_data video_name c x, out))
  ∨ (∃ e,
       malformed s cols row e
       ∧ process_row s cols row_number row parsed_data out
         = (parsed_data, out ++ [WarningParse (row_number + 1) e row]))
  ∨ (too_short s cols row
     ∧ process_row s cols row_number row parsed_data out
       = (parsed_data, out ++ [WarningColumns (row_number + 1) row])).
Proof.
  destruct row as [|field0 row0]; [left; split; [done|by left]|].
  set (row := field0 :: row0).
  assert (row ≠ []) as Hne by done.
  destruct (row !! video_col_idx cols) as [field|] eqn:Hvideo; cycle 1.
  { right; right; right. split; [split; [done|by left]|].
    unfold process_row, try_row, getfield. fold row. by rewrite Hvideo. }
  assert (row_group cols row = Some (clean field)) as Hgroup
    by (unfold row_group; by rewrite Hvideo).
  destruct (decide (clean field ∈ target_video_names s)) as [Htarget|Hother];
    cycle 1.
  { left. split; [by eapply process_row_other_group|].
    right; left. by exists (clean field). }
  destruct (row !! lpips_col_idx cols) as [lpips_str|] eqn:Hlpips; cycle 1.
  { right; right; right. split.
    - split; [done|]. right. exists (clean field). repeat split; try done.
      by left.
    - unfold process_row, try_row, getfield. fold row. rewrite Hvideo. simpl.
      fold (clean field). rewrite bool_decide_eq_true_2 by done.
      by rewrite Hlpips. }
  destruct (float lpips_str) as [lpips|] eqn:Hfloat; cycle 1.
  { right; right; left. exists lpips_str. split.
    - exists (clean field), lpips_str. repeat split; try done. by left.
    - apply process_row_malformed.
      exists (clean field), lpips_str. repeat split; try done. by left. }
  assert (row_metric cols row = Some lpips) as Hmetric
    by (unfold row_metric; rewrite Hlpips; done).
  destruct (row !! avg_loss_col_idx cols) as [loss_field|] eqn:Hloss; cycle 1.
  { right; right; right. split.
    - split; [done|]. right. exists (clean field). repeat split; try done.
      right. by rewrite Hmetric.
    - unfold process_row, try_row, getfield, to_float. fold row.
      rewrite Hvideo. simpl. fold (clean field).
      rewrite bool_decide_eq_true_2 by done.
      rewrite Hlpips. simpl. rewrite Hfloat. simpl. by rewrite Hloss. }
  destruct (float (clean loss_field)) as [avg_loss|] eqn:Hfloat2; cycle 1.
  { right; right; left. exists (clean loss_field).
    assert (malformed s cols row (clean loss_field)) as Hbad.
    { exists (clean field), lpips_str. repeat split; try done. right.
      split; [by rewrite Hfloat|]. by exists loss_field. }
    split; [done|]. by apply process_row_malformed. }
  assert (row_loss cols row = Some avg_loss) as Hrowloss
    by (unfold row_loss; rewrite Hloss; done).
  destruct (categorize s avg_loss) as [c|] eqn:Hcat.
  - right; left.
    assert (contribution s cols (clean field) c row = Some lpips) as Hc.
    { unfold contribution. rewrite bool_decide_eq_true_2; [done|].
      repeat split; try done. rewrite Hrowloss. done. }
    exists (clean field), c, lpips. split; [done|].
    destruct (process_row_valid s cols row_number row parsed_data out)
      as (v' & c' & x' & Hrun); [by exists (clean field), c, lpips|].
    rewrite Hrun. f_equal.
    unfold process_row, try_row, getfield, to_float in Hrun. fold row in Hrun.
    rewrite Hvideo in Hrun. simpl in Hrun. fold (clean field) in Hrun.
    rewrite bool_decide_eq_true_2 in Hrun by done.
    rewrite Hlpips in Hrun. simpl in Hrun. rewrite Hfloat in Hrun.
    simpl in Hrun. rewrite Hloss in Hrun. simpl in Hrun.
    fold (clean loss_field) in Hrun. rewrite Hfloat2 in Hrun. simpl in Hrun.
    rewrite Hcat in Hrun. by injection Hrun as <-.
  - left. split.
    + unfold process_row, try_row, getfield, to_float. fold row.
      rewrite Hvideo. simpl. fold (clean field).
      rewrite bool_decide_eq_true_2 by done.
      rewrite Hlpips. simpl. rewrite Hfloat. simpl. rewrite Hloss. simpl.
      fold (clean loss_field). rewrite Hfloat2. simpl. by rewrite Hcat.
    + right; right. by exists (clean field), lpips, avg_loss.
Qed.

Lemma process_row_too_short s cols row_number row parsed_data out :
  too_short s cols row →
  process_row s cols row_number row parsed_data out
  = (parsed_data, out ++ [WarningColumns (row_number + 1) row]).
Proof.
  intros [Hne Hshort].
  destruct (process_row_cases s cols row_number row parsed_data out)
    as [[_ Hsilent]|[(v & c & x & Hc & _)|[(e & Hbad & _)|[_ Hrun]]]];
    [| | |done]; exfalso.
  - destruct Hsilent as [->|[(v & Hg & Hv)|(v & x & l & Hg & Hv & Hm & Hl & _)]];
      [done|..]; unfold row_group, row_metric, row_loss in *;
      destruct Hshort as [Hnone|(v' & Hg' & Hv' & [Hnone|[_ Hnone]])];
      rewrite ?Hnone in *; simpl in *; try done; congruence.
  - unfold contribution in Hc. case_bool_decide as H; [|done].
    destruct H as (Hg & Hv & Hl).
    unfold row_group, row_metric, row_loss in *.
    destruct Hshort as [Hnone|(v' & Hg' & Hv' & [Hnone|[_ Hnone]])];
      rewrite ?Hnone in *; simpl in *; done.
  - destruct Hbad as (v & lpips_str & Hg & Hv & Hl & Hrest).
    unfold row_group, row_metric in *.
    destruct Hshort as [Hnone|(v' & Hg' & Hv' & [Hnone|[[x Hx] Hnone]])];
      rewrite ?Hnone in *; simpl in *; try done.
    rewrite Hl in Hx. simpl in Hx.
    destruct Hrest as [[Hf _]|(_ & lf & Hlf & _)]; congruence.
Qed.

Lemma process_row_messages s cols row_number row parsed_data out :
  ∃ emitted,
    (process_row s cols row_number row parsed_data out).2 = out ++ emitted
    ∧ ∀ msg, msg ∈ emitted ↔ row_messages s cols (row_number + 1) row msg.
Proof.
  assert (∀ l (x : message), l = l ++ [x] → False) as Hlen.
  { intros l x H. apply (f_equal length) in H.
    rewrite length_app in H. simpl in H. lia. }
  pose proof (process_row_malformed s cols row_number row) as Hbad.
  pose proof (process_row_too_short s cols row_number row parsed_data out)
    as Hshort.
  destruct (process_row_cases s cols row_number row parsed_data out)
    as [[Hrun _]|[(v & c & x & _ & Hrun)|[(e & He & Hrun)|[Hs Hrun]]]];
    rewrite Hrun; simpl.
  - exists []. split; [by rewrite app_nil_r|]. intros msg. split.
    + by intros ?%elem_of_nil.
    + intros [(e & He & _)|[Hs _]]; exfalso.
      * specialize (Hbad e parsed_data out He). rewrite Hrun in Hbad.
        injection Hbad as Hbad. by eapply Hlen.
      * specialize (Hshort Hs). rewrite Hrun in Hshort.
        injection Hshort as Hshort. by eapply Hlen.
  - exists []. split; [by rewrite app_nil_r|]. intros msg. split.
    + by intros ?%elem_of_nil.
    + intros [(e & He & _)|[Hs _]]; exfalso.
      * specialize (Hbad e parsed_data out He). rewrite Hrun in Hbad.
        injection Hbad as _ Hbad. by eapply Hlen.
      * specialize (Hshort Hs). rewrite Hrun in Hshort.
        injection Hshort as _ Hshort. by eapply Hlen.
  - eexists. split; [done|]. intros msg. rewrite list_elem_of_singleton.
    split.
    + intros ->. left. by exists e.
    + intros [(e' & He' & ->)|[Hs ->]].
      * specialize (Hbad e' parsed_data out He'). rewrite Hrun in Hbad.
        injection Hbad as Hbad. by apply app_inv_head in Hbad as [= ->].
      * specialize (Hshort Hs). rewrite Hrun in Hshort.
        injection Hshort as Hshort. by apply app_inv_head in Hshort.
  - eexists. split; [done|]. intros msg. rewrite list_elem_of_singleton.
    split.
    + intros ->. by right.
    + intros [(e' & He' & ->)|[_ ->]]; [|done].
      specialize (Hbad e' parsed_data out He'). rewrite Hrun in Hbad.
      injection Hbad as Hbad. by apply app_inv_head in Hbad.
Qed.

Lemma ingest_from_messages s cols rows row_number parsed_data out :
  ∃ emitted,
    (ingest_from s cols row_number rows parsed_data out).2 = out ++ emitted
    ∧ ∀ msg,
        msg ∈ emitted
        ↔ ∃ k row,
            rows !! k = Some row
            ∧ row_messages s cols (row_number + k + 1) row msg.
Proof.
  revert row_number parsed_data out.
  induction rows as [|row rows IH]; intros row_number parsed_data out; simpl.
  - exists []. split; [by rewrite app_nil_r|]. intros msg. split.
    + by intros ?%elem_of_nil.
    + by intros (k & r & ? & _).
  - rewrite io_bind_eq.
    destruct (process_row_messages s cols row_number row parsed_data out)
      as (d & Hd & Hmsgs).
    destruct (process_row s cols row_number row parsed_data out)
      as [parsed_data' out']. simpl in Hd. subst out'.
    destruct (IH (S row_number) parsed_data' (out ++ d))
      as (emitted & Hout & Hrest).
    exists (d ++ emitted). split; [by rewrite Hout, app_assoc|].
    intros msg. rewrite elem_of_app, Hmsgs, Hrest. split.
    + intros [H|(k & r & Hk & H)].
      * exists 0, row. split; [done|]. by rewrite Nat.add_0_r.
      * exists (S k), r. split; [done|].
        by replace (row_number + S k + 1) with (S row_number + k + 1) by lia.
    + intros ([|k] & r & Hk & H); simpl in Hk.
      * injection Hk as <-. left. by rewrite Nat.add_0_r in H.
      * right. exists k, r. split; [done|].
        by replace (S row_number + k + 1) with (row_number + S k + 1) by lia.
Qed.

(** ** Every warning names a row and its line *)

(** Every message of the row loop is the warning of one row of the table,
    and every malformed or short row has its warning; the number in the
    warning of the row at position [k] (counting from 0, blank rows
    included) is [k + 2], its line in a file whose first line is the
    header. *)
Theorem warnings_name_rows_and_lines (s : script) (cols : columns)
    (rows : list (list string)) (msg : message) :
  msg ∈ (run (ingest s cols rows)).2
  ↔ ∃ k row,
      rows !! k = Some row
      ∧ ((∃ e, malformed s cols row e ∧ msg = WarningParse (k + 2) e row)
         ∨ (too_short s cols row ∧ msg = WarningColumns (k + 2) row)).
Proof.
  unfold run, ingest.
  destruct (ingest_from_messages s cols rows 1 ∅ []) as (emitted & -> & H).
  simpl. rewrite H. unfold row_messages.
  split; intros (k & row & Hk & Hmsg); exists k, row; (split; [done|]).
  - by replace (k + 2) with (1 + k + 1) by lia.
  - by replace (1 + k + 1) with (k + 2) by lia.
Qed.

(** A row that is not empty and has no field at the video column, or a
    row of a group of interest that lacks the metric or the loss column,
    is reported by a column warning with its line, and adds nothing. *)
Theorem short_rows_are_reported (s : script) (cols : columns)
    (row_number : nat) (row : list string)
    (parsed_data : gmap string buckets) (out : list message) :
  too_short s cols row →
  process_row s cols row_number row parsed_data out
  = (parsed_data, out ++ [WarningColumns (row_number + 1) row]).
Proof. apply process_row_too_short. Qed.

Lemma short_rows_are_reported_witness :
  process_row VideoLoss.config fallback_columns 1
    ["video-0.mp4"; "0.0"; "0.10"] ∅ []
  = (∅, [] ++ [WarningColumns (1 + 1) ["video-0.mp4"; "0.0"; "0.10"]]).
Proof.
  apply (short_rows_are_reported VideoLoss.config fallback_columns 1
           ["video-0.mp4"; "0.0"; "0.10"] ∅ []).
  split; [done|]. left. reflexivity.
Defined.

(** A row of a group of interest whose fields are numbers but whose loss
    fraction lies in neither band is passed over without any message; the
    run is the same as with a blank line in its place. *)
Theorem out_of_band_rows_are_silent (s : script) (header : list string)
    (pre post : list (list string)) (row : list string) :
  out_of_band s (columns_of header) row →
  (∀ row_number parsed_data out,
     process_row s (columns_of header) row_number row parsed_data out
     = (parsed_data, out))
  ∧ ∀ out,
      generate_lpips_plot s (header :: pre ++ row :: post) out
      = generate_lpips_plot s (header :: pre ++ [] :: post) out.
Proof.
  intros Hband.
  assert (∀ row_number parsed_data out,
            process_row s (columns_of header) row_number row parsed_data out
            = (parsed_data, out)) as Hrow.
  { intros row_number parsed_data out.
    destruct Hband as (v & x & l & Hg & Hv & Hm & Hl & Hcat).
    destruct (process_row_cases s (columns_of header) row_number row
                parsed_data out)
      as [[Hrun _]|[(v' & c & x' & Hc & _)|[(e & Hbad & _)|[[_ Hs] _]]]];
      [done|exfalso..].
    - unfold contribution in Hc. case_bool_decide as H; [|done].
      destruct H as (_ & _ & H). rewrite Hl in H. simpl in H. congruence.
    - destruct Hbad as (v' & lpips_str & _ & _ & Hlp & Hrest).
      unfold row_metric, row_loss in *. rewrite Hlp in Hm. simpl in Hm.
      destruct Hrest as [[Hf _]|(_ & lf & Hlf & Hf & _)]; [congruence|].
      rewrite Hlf in Hl. simpl in Hl. congruence.
    - unfold row_group, row_metric, row_loss in *.
      destruct Hs as [Hnone|(v' & _ & _ & [Hnone|[_ Hnone]])];
        rewrite Hnone in *; done. }
  split; [done|].
  intros out. unfold generate_lpips_plot. rewrite !io_bind_eq.
  rewrite (resolve_columns_appends header out). fold (columns_of header).
  rewrite !io_bind_eq. unfold ingest. rewrite !ingest_from_app.
  destruct (ingest_from _ _ _ pre _ _) as [parsed_data1 out1]. simpl.
  rewrite !io_bind_eq. by rewrite Hrow.
Qed.

Lemma out_of_band_rows_are_silent_witness :
  (∀ row_number parsed_data out,
     process_row VideoLoss.config
       (columns_of ["video"; "avg_packet_loss"; "lpips"]) row_number
       ["video-0.mp4"; "0.10"; "0.22"] parsed_data out
     = (parsed_data, out))
  ∧ ∀ out,
      generate_lpips_plot VideoLoss.config
        (["video"; "avg_packet_loss"; "lpips"]
         :: [["video-0.mp4"; "0.0"; "0.10"]]
            ++ ["video-0.mp4"; "0.10"; "0.22"]
            :: [["video-1.mp4"; "0.2"; "0.30"]]) out
      = generate_lpips_plot VideoLoss.config
          (["video"; "avg_packet_loss"; "lpips"]
           :: [["video-0.mp4"; "0.0"; "0.10"]]
              ++ [] :: [["video-1.mp4"; "0.2"; "0.30"]]) out.
Proof.
  apply (out_of_band_rows_are_silent VideoLoss.config
           ["video"; "avg_packet_loss"; "lpips"]
           [["video-0.mp4"; "0.0"; "0.10"]] [["video-1.mp4"; "0.2"; "0.30"]]
           ["video-0.mp4"; "0.10"; "0.22"]).
  exists "video-0.mp4", (Fin (qc 22 100)), (Fin (qc 10 100)).
  repeat split; compute_done.
Defined.

(** ** A whole run, read off the rows of the table *)

Lemma bar_height s cols rows out c video_name :
  bar (ingest s cols rows out).1 c video_name
  = height s cols rows video_name c.
Proof. unfold bar, height. by rewrite ingest_bucket. Qed.

Lemma notes_table s cols rows out :
  target_video_names s ≫= notes (ingest s cols rows out).1
  = table_notes s cols rows.
Proof.
  unfold table_notes. apply list_bind_ext; [|done]. intros v.
  unfold notes, note. rewrite !ingest_bucket.
  destruct (contributions s cols v Loss0 rows),
    (contributions s cols v LossBand rows); done.
Qed.

Lemma aggregate_table s cols rows out out' :
  aggregate s (ingest s cols rows out).1 out'
  = (table_plot s cols rows, out' ++ table_notes s cols rows).
Proof.
  rewrite aggregate_spec, notes_table. f_equal. unfold table_plot. f_equal.
  - apply list_fmap_ext. intros _ v _. apply bar_height.
  - apply list_fmap_ext. intros _ v _. apply bar_height.
Qed.

Lemma generate_lpips_plot_table s header rows out :
  generate_lpips_plot s (header :: rows) out
  = (if all_zero (table_plot s (columns_of header) rows)
     then NoData (table_plot s (columns_of header) rows)
     else Plotted (table_plot s (columns_of header) rows),
     out ++ (run (resolve_columns header)).2
       ++ (run (ingest s (columns_of header) rows)).2
       ++ table_notes s (columns_of header) rows
       ++ (if all_zero (table_plot s (columns_of header) rows)
           then [ErrorNoData] else [])).
Proof.
  unfold generate_lpips_plot. rewrite io_bind_eq.
  rewrite (resolve_columns_appends header out). fold (columns_of header).
  rewrite io_bind_eq.
  pose proof (ingest_appends s (columns_of header) rows
                (out ++ (run (resolve_columns header)).2)) as Hin.
  destruct (ingest s (columns_of header) rows
              (out ++ (run (resolve_columns header)).2))
    as [parsed_data out2] eqn:Hrun.
  injection Hin as Hpd Hout2.
  rewrite io_bind_eq.
  replace parsed_data with
    (ingest s (columns_of header) rows
       (out ++ (run (resolve_columns header)).2)).1 by (by rewrite Hrun).
  rewrite aggregate_table. fold (all_zero (table_plot s (columns_of header) rows)).
  rewrite Hout2.
  destruct (all_zero _); unfold print, mbind, io_bind, mret, io_ret; simpl;
    rewrite <- ?app_assoc; by rewrite ?app_nil_r.
Qed.

(** Whatever the table holds, a run on a non-empty input hands over one
    label and one pair of bars per target video, in the order of
    [target_video_names]: videos without rows are not left out. *)
Theorem one_bar_pair_per_target (s : script) (header : list string)
    (rows : list (list string)) (out : list message) :
  ∃ plot,
    plot_of (generate_lpips_plot s (header :: rows) out).1 = Some plot
    ∧ video_labels plot = video_label s <$> target_video_names s
    ∧ length (lpips_0_loss_avg plot) = length (target_video_names s)
    ∧ length (lpips_band_loss_avg plot) = length (target_video_names s).
Proof.
  exists (table_plot s (columns_of header) rows).
  rewrite generate_lpips_plot_table.
  split; [by destruct (all_zero _)|]. simpl.
  by rewrite !length_fmap.
Qed.

Lemma ingest_messages_are_warnings s cols rows msg :
  msg ∈ (run (ingest s cols rows)).2 →
  (∃ line e row, msg = WarningParse line e row)
  ∨ (∃ line row, msg = WarningColumns line row).
Proof.
  unfold run, ingest.
  destruct (ingest_from_messages s cols rows 1 ∅ []) as (emitted & -> & H).
  simpl. rewrite H.
  intros (k & row & _ & [(e & _ & ->)|[_ ->]]); eauto.
Qed.

Lemma resolve_columns_messages header msg :
  msg ∈ (run (resolve_columns header)).2 →
  msg = ErrorHeader ∨ msg = FoundHeader header ∨ msg = WarningFallback 6 8 13.
Proof.
  unfold run, resolve_columns.
  destruct (index "lpips" header), (index "avg_packet_loss" header),
    (index "video" header); simpl;
    rewrite ?elem_of_cons, ?elem_of_nil; tauto.
Qed.

Lemma elem_of_table_notes s cols rows video_name c :
  InfoNoData video_name c ∈ table_notes s cols rows
  ↔ video_name ∈ target_video_names s
    ∧ contributions s cols video_name c rows = [].
Proof.
  unfold table_notes. rewrite list_elem_of_bind. split.
  - intros (v & Hin & Hv). rewrite elem_of_app in Hin.
    destruct Hin as [Hin|Hin]; case_bool_decide as H;
      try (by apply elem_of_nil in Hin);
      apply list_elem_of_singleton in Hin; injection Hin as -> ->; done.
  - intros [Hv Hnone]. exists video_name. split; [|done].
    destruct c; rewrite elem_of_app; [left|right];
      rewrite bool_decide_eq_true_2 by done; by apply list_elem_of_singleton.
Qed.

(** A run prints the note of a key exactly when the key is one of a
    target video and no row of the table contributes to it. *)
Theorem note_iff_no_rows (s : script) (header : list string)
    (rows : list (list string)) (video_name : string) (c : condition) :
  InfoNoData video_name c ∈ (run (generate_lpips_plot s (header :: rows))).2
  ↔ video_name ∈ target_video_names s
    ∧ contributions s (columns_of header) video_name c rows = [].
Proof.
  unfold run at 1. rewrite generate_lpips_plot_table. simpl.
  rewrite !elem_of_app, elem_of_table_notes. split; [|tauto].
  intros [H|[H|[H|H]]]; [| |done|].
  - apply resolve_columns_messages in H as [H|[H|H]]; done.
  - apply ingest_messages_are_warnings in H
      as [(? & ? & ? & H)|(? & ? & H)]; done.
  - destruct (all_zero _); [|by apply elem_of_nil in H].
    by apply list_elem_of_singleton in H.
Qed.

(** ** The test before the plot *)

Lemma float_truthy_false x : float_truthy x = false ↔ x = float_zero.
Proof.
  unfold float_truthy, float_eqb, float_zero.
  destruct x as [q| |]; simpl; try (split; [done|intros [=]]).
  rewrite negb_false_iff, bool_decide_eq_true. split; [by intros ->|].
  by intros [= ->].
Qed.

Lemma any_false l : any l = false ↔ ∀ x, x ∈ l → x = float_zero.
Proof.
  unfold any. induction l as [|x l IH]; simpl.
  - split; [by intros _ ? ?%elem_of_nil|done].
  - rewrite orb_false_iff, IH, float_truthy_false. split.
    + intros [-> H] y [->|Hy]%elem_of_cons; auto.
    + intros H. split; [apply H; by left|]. intros y Hy. apply H. by right.
Qed.

Lemma all_zero_table s cols rows :
  all_zero (table_plot s cols rows) = true
  ↔ ∀ video_name c,
      video_name ∈ target_video_names s →
      height s cols rows video_name c = float_zero.
Proof.
  unfold all_zero, table_plot. simpl.
  rewrite andb_true_iff, !negb_true_iff, !any_false. split.
  - intros [H0 Hband] v c Hv.
    destruct c; [apply H0|apply Hband];
      apply list_elem_of_fmap; by exists v.
  - intros H. split; intros x (v & -> & Hv)%list_elem_of_fmap; by apply H.
Qed.

(** A run ends with No data found, and without a plot, exactly when every
    bar is the number 0: when no row contributes to any key, but also when
    rows do contribute and every average is 0. *)
Theorem no_data_iff_all_bars_zero (s : script) (header : list string)
    (rows : list (list string)) :
  ((∃ plot, (run (generate_lpips_plot s (header :: rows))).1 = NoData plot)
   ↔ ∀ video_name c,
       video_name ∈ target_video_names s →
       height s (columns_of header) rows video_name c = float_zero)
  ∧ (ErrorNoData ∈ (run (generate_lpips_plot s (header :: rows))).2
     ↔ ∀ video_name c,
         video_name ∈ target_video_names s →
         height s (columns_of header) rows video_name c = float_zero).
Proof.
  unfold run. rewrite generate_lpips_plot_table. simpl.
  rewrite <- all_zero_table. split.
  - destruct (all_zero _); split; try done; [by eexists|by intros [? ?]].
  - rewrite !elem_of_app. split.
    + intros [H|[H|[H|H]]].
      * apply resolve_columns_messages in H as [H|[H|H]]; done.
      * apply ingest_messages_are_warnings in H
          as [(? & ? & ? & H)|(? & ? & H)]; done.
      * unfold table_notes in H. apply list_elem_of_bind in H as (v & H & _).
        apply elem_of_app in H as [H|H]; case_bool_decide;
          try (by apply elem_of_nil in H);
          by apply list_elem_of_singleton in H.
      * destruct (all_zero _); [done|by apply elem_of_nil in H].
    + intros ->. do 3 right. by apply list_elem_of_singleton.
Qed.

(** ** The fall-back on a narrow table *)

Lemma contributions_cons s cols video_name c row rows :
  contributions s cols video_name c (row :: rows)
  = option_list (contribution s cols video_name c row)
    ++ contributions s cols video_name c rows.
Proof.
  unfold contributions. simpl.
  by destruct (contribution s cols video_name c row).
Qed.

Lemma contributions_no_group s cols rows video_name c :
  Forall (λ row, row_group cols row = None) rows →
  contributions s cols video_name c rows = [].
Proof.
  induction 1 as [|row rows Hrow _ IH]; [done|].
  rewrite contributions_cons, IH. unfold contribution.
  rewrite bool_decide_eq_false_2; [done|].
  intros [H _]. by rewrite Hrow in H.
Qed.

Lemma fmap_constant {A B} (f : A → B) (z : B) (l : list A) :
  (∀ x, f x = z) → f <$> l = replicate (length l) z.
Proof.
  intros H. induction l as [|x l IH]; [done|].
  rewrite fmap_cons, H, IH. done.
Qed.

(** When the header lacks a required name and no row has fourteen fields,
    the positions 6, 8 and 13 find no video name in any row: every bar is
    0 and the run ends with No data found. *)
Theorem fallback_on_narrow_table_finds_nothing (s : script)
    (header : list string) (rows : list (list string)) :
  "lpips" ∉ header ∨ "avg_packet_loss" ∉ header ∨ "video" ∉ header →
  Forall (λ row : list string, (length row ≤ 13)%nat) rows →
  ∃ plot,
    (run (generate_lpips_plot s (header :: rows))).1 = NoData plot
    ∧ ∀ c, bars c plot = replicate (length (target_video_names s)) float_zero.
Proof.
  intros Hmissing Hnarrow.
  assert (columns_of header = fallback_columns) as Hcols.
  { unfold columns_of, run. rewrite resolve_columns_fallback; [done|].
    unfold required_columns. tauto. }
  assert (∀ v c, height s (columns_of header) rows v c = float_zero) as Hzero.
  { intros v c. unfold height. rewrite contributions_no_group; [done|].
    rewrite Hcols. eapply List.Forall_impl; [|exact Hnarrow].
    intros row Hlen. simpl in Hlen. unfold row_group. simpl.
    by rewrite (lookup_ge_None_2 row 13). }
  exists (table_plot s (columns_of header) rows).
  unfold run. rewrite generate_lpips_plot_table. simpl.
  rewrite (proj2 (all_zero_table s (columns_of header) rows))
    by (intros; apply Hzero).
  split; [done|]. intros c. unfold table_plot.
  destruct c; simpl; apply fmap_constant; intros; apply Hzero.
Qed.

Lemma fallback_on_narrow_table_finds_nothing_witness :
  ∃ plot,
    (run (generate_lpips_plot VideoLoss.config
            (["video-0.mp4"; "0.0"; "0.10"]
             :: [["video-0.mp4"; "0.20"; "0.30"]]))).1 = NoData plot
    ∧ ∀ c, bars c plot
           = replicate (length (target_video_names VideoLoss.config))
               float_zero.
Proof.
  apply (fallback_on_narrow_table_finds_nothing VideoLoss.config
           ["video-0.mp4"; "0.0"; "0.10"] [["video-0.mp4"; "0.20"; "0.30"]]).
  - left. compute_done.
  - repeat constructor; simpl; lia.
Defined.

(** ** The plot depends on three fields of each row only *)

Lemma contributions_ext s cols1 cols2 rows1 rows2 video_name c :
  Forall2 (λ row1 row2,
             row_group cols1 row1 = row_group cols2 row2
             ∧ row_metric cols1 row1 = row_metric cols2 row2
             ∧ row_loss cols1 row1 = row_loss cols2 row2) rows1 rows2 →
  contributions s cols1 video_name c rows1
  = contributions s cols2 video_name c rows2.
Proof.
  induction 1 as [|row1 row2 rows1 rows2 (Hg & Hm & Hl) _ IH]; [done|].
  rewrite !contributions_cons, IH. unfold contribution.
  by rewrite Hg, Hm, Hl.
Qed.

(** Two tables whose rows agree, one by one, on the cleaned video name, on
    the number read as metric and on the number read as loss fraction give
    the same table of bars, whatever the order of their columns and
    whatever their other columns hold. *)
Theorem plot_depends_on_three_fields (s : script)
    (header1 header2 : list string) (rows1 rows2 : list (list string))
    (out1 out2 : list message) :
  Forall2 (λ row1 row2,
             row_group (columns_of header1) row1
             = row_group (columns_of header2) row2
             ∧ row_metric (columns_of header1) row1
               = row_metric (columns_of header2) row2
             ∧ row_loss (columns_of header1) row1
               = row_loss (columns_of header2) row2) rows1 rows2 →
  (generate_lpips_plot s (header1 :: rows1) out1).1
  = (generate_lpips_plot s (header2 :: rows2) out2).1.
Proof.
  intros Hrows. rewrite !generate_lpips_plot_table. simpl.
  assert (table_plot s (columns_of header1) rows1
          = table_plot s (columns_of header2) rows2) as ->; [|done].
  unfold table_plot, height. f_equal;
    apply list_fmap_ext; intros _ v _;
    by rewrite (contributions_ext s _ _ _ _ v _ Hrows).
Qed.

Lemma plot_depends_on_three_fields_witness :
  (generate_lpips_plot VideoLoss.config
     (["video"; "avg_packet_loss"; "lpips"]
      :: [["video-0.mp4"; "0.0"; "0.10"]; ["video-1.mp4"; "0.2"; "0.30"]])
     []).1
  = (generate_lpips_plot VideoLoss.config
       (["run"; "lpips"; "video"; "avg_packet_loss"]
        :: [["7"; " 0.1"; " video-0.mp4 "; "0"];
            ["8"; "3e-1"; "video-1.mp4"; "0.20"]])
       []).1.
Proof.
  apply (plot_depends_on_three_fields VideoLoss.config
           ["video"; "avg_packet_loss"; "lpips"]
           ["run"; "lpips"; "video"; "avg_packet_loss"]).
  repeat constructor; compute_done.
Defined.

(** ** What the buckets hold *)

Lemma ingest_from_keys s cols rows row_number parsed_data out :
  (∀ video_name, is_Some (parsed_data !! video_name) →
                 video_name ∈ target_video_names s) →
  ∀ video_name,
    is_Some ((ingest_from s cols row_number rows parsed_data out).1
               !! video_name) →
    video_name ∈ target_video_names s.
Proof.
  revert row_number parsed_data out.
  induction rows as [|row rows IH]; intros row_number parsed_data out Hkeys;
    simpl; [done|].
  rewrite io_bind_eq.
  destruct (process_row_cases s cols row_number row parsed_data out)
    as [[Hrun _]|[(v & c & x & Hc & Hrun)|[(e & _ & Hrun)|[_ Hrun]]]];
    rewrite Hrun; apply IH; try done.
  intros v' Hv'. unfold append in Hv'.
  destruct (decide (v = v')) as [<-|Hne].
  - unfold contribution in Hc. case_bool_decide as H; [|done]. by destruct H as (_ & ? & _).
  - rewrite lookup_insert_ne in Hv' by done. by apply Hkeys.
Qed.

(** The row loop stores values under the names of target videos only, and
    under every name it stores exactly the values of the rows of that
    video, per condition and in the order of the rows. *)
Theorem buckets_hold_target_rows (s : script) (cols : columns)
    (rows : list (list string)) (video_name : string) :
  (is_Some ((run (ingest s cols rows)).1 !! video_name) →
   video_name ∈ target_video_names s)
  ∧ ∀ c, bucket c (getitem (run (ingest s cols rows)).1 video_name)
         = contributions s cols video_name c rows.
Proof.
  split.
  - apply ingest_from_keys. intros v [b Hb]. by rewrite lookup_empty in Hb.
  - intros c. apply ingest_bucket.
Qed.

(** ** The two video scripts on the same table *)

Lemma categorize_zero s avg_loss :
  categorize s avg_loss = Some Loss0 ↔ avg_loss = float_zero.
Proof.
  unfold categorize.
  destruct (float_eqb avg_loss float_zero) eqn:Heq.
  - split; [|done]. intros _. apply float_truthy_false.
    unfold float_truthy. by rewrite Heq.
  - split.
    + by destruct (second_band s avg_loss).
    + intros Hzero. apply float_truthy_false in Hzero.
      unfold float_truthy in Hzero. by rewrite Heq in Hzero.
Qed.

Lemma contributions_zero_loss s1 s2 cols video_name rows :
  video_name ∈ target_video_names s1 →
  video_name ∈ target_video_names s2 →
  contributions s1 cols video_name Loss0 rows
  = contributions s2 cols video_name Loss0 rows.
Proof.
  intros H1 H2. induction rows as [|row rows IH]; [done|].
  rewrite !contributions_cons, IH. f_equal. f_equal. unfold contribution.
  apply (f_equal (λ b : bool, if b then row_metric cols row else None)).
  apply bool_decide_ext.
  destruct (row_loss cols row) as [l|]; simpl.
  - rewrite !categorize_zero. tauto.
  - split; intros (_ & _ & [=]).
Qed.

(** On the same table, [video_loss.py] and [video_loss2.py] draw the same
    0% bar for every video that both of them plot: the bands differ, the
    test for 0% does not. *)
Theorem zero_loss_bar_is_shared (s1 s2 : script) (header : list string)
    (rows : list (list string)) (i1 i2 : nat) (video_name : string) :
  target_video_names s1 !! i1 = Some video_name →
  target_video_names s2 !! i2 = Some video_name →
  ∃ plot1 plot2,
    plot_of (run (generate_lpips_plot s1 (header :: rows))).1 = Some plot1
    ∧ plot_of (run (generate_lpips_plot s2 (header :: rows))).1 = Some plot2
    ∧ is_Some (lpips_0_loss_avg plot1 !! i1)
    ∧ lpips_0_loss_avg plot1 !! i1 = lpips_0_loss_avg plot2 !! i2.
Proof.
  intros H1 H2.
  exists (table_plot s1 (columns_of header) rows),
    (table_plot s2 (columns_of header) rows).
  unfold run. rewrite !generate_lpips_plot_table. simpl.
  split; [by destruct (all_zero _)|]. split; [by destruct (all_zero _)|].
  rewrite !list_lookup_fmap, H1, H2. simpl. split; [done|].
  unfold height.
  by rewrite (contributions_zero_loss s1 s2)
    by (by eapply list_elem_of_lookup_2).
Qed.

Lemma zero_loss_bar_is_shared_witness :
  ∃ plot1 plot2,
    plot_of (run (generate_lpips_plot VideoLoss.config
                    (["video"; "avg_packet_loss"; "lpips"] :: ten_rows))).1
    = Some plot1
    ∧ plot_of (run (generate_lpips_plot VideoLoss2.config
                      (["video"; "avg_packet_loss"; "lpips"] :: ten_rows))).1
      = Some plot2
    ∧ is_Some (lpips_0_loss_avg plot1 !! 3%nat)
    ∧ lpips_0_loss_avg plot1 !! 3%nat = lpips_0_loss_avg plot2 !! 4%nat.
Proof.
  apply (zero_loss_bar_is_shared VideoLoss.config VideoLoss2.config
           ["video"; "avg_packet_loss"; "lpips"] ten_rows 3 4 "video-4.mp4");
    reflexivity.
Defined.

(** The band of [video_loss2.py]: a loss fraction gets the 0% label
    exactly when it is 0.0, the band label exactly when it is above 0 and
    at most 0.05, and no label otherwise (also when it is negative,
    infinite or NaN); no loss fraction is in the bands of both scripts. *)
Theorem loss_bands_of_video_loss2 :
  (∀ x, categorize VideoLoss2.config x = Some Loss0 ↔ x = Fin (qc 0 1))
  ∧ (∀ x, categorize VideoLoss2.config x = Some LossBand
          ↔ ∃ q, x = Fin q ∧ (qc 0 1 < q ∧ q ≤ qc 5 100)%Qc)
  ∧ (∀ x, categorize VideoLoss2.config x = Some LossBand →
          categorize VideoLoss.config x ≠ Some LossBand).
Proof.
  assert (∀ x, categorize VideoLoss2.config x = Some LossBand
               ↔ ∃ q, x = Fin q ∧ (qc 0 1 < q ∧ q ≤ qc 5 100)%Qc) as Hband.
  { intros x. split.
    - destruct x as [q|[]|]; try done. rewrite categorize_2_finite.
      case_bool_decide; [done|]. case_bool_decide; [by exists q|done].
    - intros (q & -> & H). rewrite categorize_2_finite.
      rewrite bool_decide_eq_false_2.
      + by rewrite bool_decide_eq_true_2.
      + intros ->. destruct H as [H _]. revert H. compute_done. }
  split; [apply categorize_zero|]. split; [done|].
  intros x (q & -> & _ & Hle)%Hband. rewrite categorize_finite.
  case_bool_decide; [done|]. case_bool_decide as Hin; [|done].
  destruct Hin as [Hge _]. exfalso. revert Hle Hge.
  unfold Qcle, qc; simpl. rewrite ?Qred_correct. lra.
Qed.

(** ** Columns found by name *)

Lemma index_first x l i :
  index x l = Some i →
  l !! i = Some x ∧ ∀ j, j < i → l !! j ≠ Some x.
Proof.
  revert i. induction l as [|y l IH]; intros i; simpl; [done|].
  destruct (String.eqb_spec y x) as [->|Hne].
  - intros [= <-]. split; [done|]. intros j Hj. lia.
  - destruct (index x l) as [k|]; simpl; [|done].
    intros [= <-]. destruct (IH k eq_refl) as [Hk Hfirst]. split; [done|].
    intros [|j] Hj; simpl; [congruence|]. apply Hfirst. lia.
Qed.

(** When the header has the three names, nothing is printed and each
    column is the first position at which its name stands, wherever that
    is and whatever other columns the header has. *)
Theorem header_names_resolve_silently (header : list string)
    (out : list message) :
  "lpips" ∈ header → "avg_packet_loss" ∈ header → "video" ∈ header →
  ∃ cols,
    resolve_columns header out = (cols, out)
    ∧ (header !! lpips_col_idx cols = Some "lpips"
       ∧ ∀ j, j < lpips_col_idx cols → header !! j ≠ Some "lpips")
    ∧ (header !! avg_loss_col_idx cols = Some "avg_packet_loss"
       ∧ ∀ j, j < avg_loss_col_idx cols →
              header !! j ≠ Some "avg_packet_loss")
    ∧ (header !! video_col_idx cols = Some "video"
       ∧ ∀ j, j < video_col_idx cols → header !! j ≠ Some "video").
Proof.
  intros Hl Ha Hv. unfold resolve_columns.
  destruct (index "lpips" header) as [l|] eqn:El;
    [|by apply index_None in El].
  destruct (index "avg_packet_loss" header) as [a|] eqn:Ea;
    [|by apply index_None in Ea].
  destruct (index "video" header) as [v|] eqn:Ev;
    [|by apply index_None in Ev].
  eexists. split; [reflexivity|]. simpl.
  auto using index_first.
Qed.

Lemma header_names_resolve_silently_witness :
  ∃ cols,
    resolve_columns ["run"; "lpips"; "video"; "avg_packet_loss"; "lpips"] []
    = (cols, [])
    ∧ (["run"; "lpips"; "video"; "avg_packet_loss"; "lpips"]
         !! lpips_col_idx cols = Some "lpips"
       ∧ ∀ j, j < lpips_col_idx cols →
              ["run"; "lpips"; "video"; "avg_packet_loss"; "lpips"] !! j
              ≠ Some "lpips")
    ∧ (["run"; "lpips"; "video"; "avg_packet_loss"; "lpips"]
         !! avg_loss_col_idx cols = Some "avg_packet_loss"
       ∧ ∀ j, j < avg_loss_col_idx cols →
              ["run"; "lpips"; "video"; "avg_packet_loss"; "lpips"] !! j
              ≠ Some "avg_packet_loss")
    ∧ (["run"; "lpips"; "video"; "avg_packet_loss"; "lpips"]
         !! video_col_idx cols = Some "video"
       ∧ ∀ j, j < video_col_idx cols →
              ["run"; "lpips"; "video"; "avg_packet_loss"; "lpips"] !! j
              ≠ Some "video").
Proof.
  apply (header_names_resolve_silently
           ["run"; "lpips"; "video"; "avg_packet_loss"; "lpips"] []);
    compute_done.
Defined.

(** ** [lpips_token.py]: the token numbers that are plotted *)

Module TokenSelectionFacts.
Import TokenSelection.

Lemma linspace_eq n :
  linspace n
  = [0 * (n - 1) / 8; 1 * (n - 1) / 8; 2 * (n - 1) / 8; 3 * (n - 1) / 8;
     4 * (n - 1) / 8; 5 * (n - 1) / 8; 6 * (n - 1) / 8; 7 * (n - 1) / 8;
     8 * (n - 1) / 8].
Proof. reflexivity. Qed.

Lemma linspace_bound (n i : nat) : 0 < n → i ∈ linspace n → i < n.
Proof.
  intros Hn. rewrite linspace_eq. rewrite !elem_of_cons, elem_of_nil.
  intros H.
  assert (∀ k : nat, (k ≤ 8)%nat → k * (n - 1) / 8 < n) as Hk.
  { intros k Hk. apply Nat.Div0.div_lt_upper_bound. nia. }
  repeat (destruct H as [->|H]; [apply Hk; lia|]). done.
Qed.

Lemma linspace_NoDup (n : nat) : (9 ≤ n)%nat → NoDup (linspace n).
Proof.
  intros Hn. rewrite linspace_eq.
  assert (∀ j k : nat, j < k → j * (n - 1) / 8 < k * (n - 1) / 8) as Hlt.
  { intros j k Hjk.
    apply Nat.lt_le_trans with ((j * (n - 1) + 8) / 8).
    - replace (j * (n - 1) + 8) with (j * (n - 1) + 1 * 8) by lia.
      rewrite Nat.div_add by lia. lia.
    - apply Nat.Div0.div_le_mono. nia. }
  assert (∀ j k : nat, j ≠ k → j * (n - 1) / 8 ≠ k * (n - 1) / 8) as Hne.
  { intros j k Hjk.
    destruct (Nat.lt_total j k) as [H|[H|H]]; [|done|];
      apply Hlt in H; lia. }
  repeat (apply NoDup_cons_2;
    [rewrite ?elem_of_cons, elem_of_nil;
     intros H; repeat (destruct H as [H|H]; [by eapply Hne in H|]); done|]).
  apply NoDup_nil_2.
Qed.

Lemma comprehension_Ok token_values_sorted positions :
  (∀ i, i ∈ positions → i < length token_values_sorted) →
  ∃ tokens,
    comprehension token_values_sorted positions = Some tokens
    ∧ Forall2 (λ i token, token_values_sorted !! i = Some token)
        positions tokens.
Proof.
  induction positions as [|i positions IH]; intros Hbound; simpl.
  - by exists [].
  - destruct (lookup_lt_is_Some_2 token_values_sorted i) as [token Htoken];
      [apply Hbound; by left|].
    rewrite Htoken. simpl.
    destruct IH as (tokens & -> & Hall);
      [intros j Hj; apply Hbound; by right|].
    exists (token :: tokens). split; [done|]. by constructor.
Qed.

Lemma comprehension_NoDup (token_values_sorted : list Z) positions tokens :
  Forall2 (λ i token, token_values_sorted !! i = Some token)
    positions tokens →
  NoDup token_values_sorted → NoDup positions → NoDup tokens.
Proof.
  intros Hall Htokens. induction Hall as [|i token positions tokens Hi Hall IH];
    intros Hpos; [constructor|].
  pose proof (NoDup_cons_1_1 _ _ Hpos) as Hnotin.
  apply NoDup_cons_1_2 in Hpos. apply NoDup_cons_2; [|auto].
  intros Hin. apply Hnotin.
  apply list_elem_of_lookup in Hin as [k Hk].
  destruct (Forall2_lookup_r _ _ _ _ _ Hall Hk) as (j & Hj & Hlookup).
  rewrite (NoDup_lookup _ _ _ _ Htokens Hi Hlookup).
  by eapply list_elem_of_lookup_2.
Qed.

Lemma comprehension_elem_of (token_values_sorted : list Z) positions tokens :
  Forall2 (λ i token, token_values_sorted !! i = Some token)
    positions tokens →
  ∀ token, token ∈ tokens → token ∈ token_values_sorted.
Proof.
  intros Hall token Hin. apply list_elem_of_lookup in Hin as [k Hk].
  destruct (Forall2_lookup_r _ _ _ _ _ Hall Hk) as (j & _ & Hlookup).
  by eapply list_elem_of_lookup_2.
Qed.

Lemma remove_length x l : x ∈ l → S (length (remove x l)) = length l.
Proof.
  induction l as [|y l IH]; simpl; [by intros ?%elem_of_nil|].
  case_bool_decide as Hy; [done|].
  intros [->|Hin]%elem_of_cons; [done|]. simpl. by rewrite IH.
Qed.

Lemma remove_elem_of x l y : y ∈ remove x l → y ∈ l.
Proof.
  induction l as [|z l IH]; simpl; [done|].
  case_bool_decide; [by right|].
  intros [->|Hin]%elem_of_cons; [by left|right; auto].
Qed.

Lemma remove_NoDup x l : NoDup l → x ∉ remove x l.
Proof.
  induction 1 as [|y l Hy _ IH]; simpl; [by intros ?%elem_of_nil|].
  case_bool_decide as Hyx; [by subst|].
  intros [->|Hin]%elem_of_cons; [done|auto].
Qed.

Lemma foldr_min x l :
  foldr Z.min x l ∈ x :: l ∧ ∀ y, y ∈ x :: l → (foldr Z.min x l ≤ y)%Z.
Proof.
  induction l as [|z l [Hin Hle]]; simpl.
  - split; [by left|]. intros y ->%list_elem_of_singleton. lia.
  - split.
    + destruct (Z.min_spec z (foldr Z.min x l)) as [[_ ->]|[_ ->]].
      * right; by left.
      * apply elem_of_cons in Hin as [->|Hin]; [by left|by do 2 right].
    + intros y Hy.
      assert (y = z ∨ y ∈ x :: l) as [->|Hy'].
      { rewrite !elem_of_cons in *. tauto. }
      * lia.
      * specialize (Hle y Hy'). lia.
Qed.

Lemma take_elem_of (n : nat) (l : list Z) y : y ∈ take n l → y ∈ l.
Proof.
  intros (i & Hi & _)%elem_of_take. by eapply list_elem_of_lookup_2.
Qed.

(** What [selected_tokens] computes when nothing is raised. *)
Lemma selected_tokens_Ok token_values_sorted token_20_set selected :
  selected_tokens token_values_sorted token_20_set = inr selected →
  ∃ all_tokens trimmed lowest_with_20,
    Forall2 (λ i token, token_values_sorted !! i = Some token)
      (linspace (length token_values_sorted)) all_tokens
    ∧ trimmed = (if bool_decide (384%Z ∈ all_tokens)
                    && negb (bool_decide (384%Z ∈ token_20_set))
                 then remove 384 all_tokens else all_tokens)
    ∧ min token_20_set = Some lowest_with_20
    ∧ selected = (if bool_decide (lowest_with_20 ∈ take 8 trimmed)
                  then take 8 trimmed
                  else lowest_with_20 :: take 8 trimmed).
Proof.
  unfold selected_tokens. intros Hsel.
  destruct token_values_sorted as [|t0 tvs]; [done|].
  destruct (comprehension_Ok (t0 :: tvs) (linspace (length (t0 :: tvs))))
    as (all_tokens & Hall & HF).
  { intros i. apply linspace_bound. simpl. lia. }
  rewrite Hall in Hsel. simpl in Hsel.
  destruct (min token_20_set) as [lowest|] eqn:Hmin; [|done].
  simpl in Hsel. injection Hsel as <-.
  eexists all_tokens, _, lowest. repeat split; done.
Qed.

Lemma trimmed_length (all_tokens : list Z) (b : bool) :
  length all_tokens = 9 →
  (b = true → 384%Z ∈ all_tokens) →
  length (take 8 (if b then remove 384 all_tokens else all_tokens)) = 8.
Proof.
  intros Hlen Hb. rewrite length_take. destruct b; [|lia].
  pose proof (remove_length 384 all_tokens (Hb eq_refl)). lia.
Qed.

(** The script ends with eight or nine token numbers, and the lowest
    token number for which there are rows labelled 20% is always one of
    them. *)
Theorem lowest_token_with_20_is_selected (token_values_sorted
    token_20_set selected : list Z) :
  selected_tokens token_values_sorted token_20_set = inr selected →
  (8 ≤ length selected ≤ 9)%nat
  ∧ ∃ lowest_with_20,
      lowest_with_20 ∈ token_20_set
      ∧ (∀ token, token ∈ token_20_set → (lowest_with_20 ≤ token)%Z)
      ∧ lowest_with_20 ∈ selected.
Proof.
  intros (all_tokens & trimmed & lowest & HF & Htrim & Hmin & ->)%selected_tokens_Ok.
  assert (length all_tokens = 9) as Hlen
    by (apply Forall2_length in HF; by rewrite <- HF).
  split.
  - assert (length (take 8 trimmed) = 8) as Htake.
    { rewrite Htrim. apply trimmed_length; [done|].
      intros [H _]%andb_true_iff. by apply bool_decide_eq_true in H. }
    destruct (bool_decide (lowest ∈ take 8 trimmed)); simpl; lia.
  - exists lowest. destruct token_20_set as [|x l]; [done|].
    injection Hmin as <-. destruct (foldr_min x l) as [Hin Hle].
    split; [exact Hin|]. split; [exact Hle|].
    destruct (bool_decide (foldr Z.min x l ∈ take 8 trimmed)) eqn:Hb;
      [by apply bool_decide_eq_true in Hb|by left].
Qed.

Lemma lowest_token_with_20_is_selected_witness :
  (8 ≤ length [10%Z; 10%Z; 10%Z; 10%Z; 20%Z; 20%Z; 20%Z; 20%Z] ≤ 9)%nat
  ∧ ∃ lowest_with_20,
      lowest_with_20 ∈ [30%Z; 20%Z]
      ∧ (∀ token, token ∈ [30%Z; 20%Z] → (lowest_with_20 ≤ token)%Z)
      ∧ lowest_with_20 ∈ [10%Z; 10%Z; 10%Z; 10%Z; 20%Z; 20%Z; 20%Z; 20%Z].
Proof.
  apply (lowest_token_with_20_is_selected [10%Z; 20%Z; 30%Z] [30%Z; 20%Z]).
  reflexivity.
Defined.

(** Every selected token number is a token number of the data, provided
    the tokens of the 20% rows are among the tokens of all labelled rows
    (as they are when both are computed from one data frame). *)
Theorem selected_tokens_are_in_the_data (token_values_sorted
    token_20_set selected : list Z) :
  selected_tokens token_values_sorted token_20_set = inr selected →
  (∀ token, token ∈ token_20_set → token ∈ token_values_sorted) →
  ∀ token, token ∈ selected → token ∈ token_values_sorted.
Proof.
  intros (all_tokens & trimmed & lowest & HF & Htrim & Hmin & ->)%selected_tokens_Ok
    Hsub token Hin.
  assert (∀ y, y ∈ take 8 trimmed → y ∈ token_values_sorted) as Htake.
  { intros y Hy%take_elem_of.
    apply (comprehension_elem_of _ _ _ HF). rewrite Htrim in Hy.
    destruct (_ && _); [by eapply remove_elem_of|done]. }
  destruct (bool_decide (lowest ∈ take 8 trimmed)); [by apply Htake|].
  apply elem_of_cons in Hin as [->|Hin]; [|by apply Htake].
  apply Hsub. destruct token_20_set as [|x l]; [done|].
  injection Hmin as <-. apply foldr_min.
Qed.

Lemma selected_tokens_are_in_the_data_witness :
  selected_tokens [10%Z; 20%Z; 30%Z] [30%Z; 20%Z]
  = inr [10%Z; 10%Z; 10%Z; 10%Z; 20%Z; 20%Z; 20%Z; 20%Z]
  ∧ 20%Z ∈ [10%Z; 20%Z; 30%Z].
Proof.
  split; [reflexivity|].
  apply (selected_tokens_are_in_the_data [10%Z; 20%Z; 30%Z] [30%Z; 20%Z]
           [10%Z; 10%Z; 10%Z; 10%Z; 20%Z; 20%Z; 20%Z; 20%Z]).
  - reflexivity.
  - intros token. rewrite !elem_of_cons. tauto.
  - compute_done.
Defined.

(** With at least nine distinct token numbers in the data, the token
    number 384 is plotted only if there are rows labelled 20% for it. *)
Theorem token_384_needs_20_rows (token_values_sorted
    token_20_set selected : list Z) :
  selected_tokens token_values_sorted token_20_set = inr selected →
  NoDup token_values_sorted →
  (9 ≤ length token_values_sorted)%nat →
  384%Z ∉ token_20_set →
  384%Z ∉ selected.
Proof.
  intros (all_tokens & trimmed & lowest & HF & Htrim & Hmin & ->)%selected_tokens_Ok
    Hdistinct Hnine Hnot.
  assert (NoDup all_tokens) as Hall.
  { eapply comprehension_NoDup; [exact HF|done|by apply linspace_NoDup]. }
  assert (384%Z ∉ trimmed) as Htrimmed.
  { rewrite Htrim. rewrite (bool_decide_eq_false_2 _ Hnot). simpl.
    rewrite andb_true_r. case_bool_decide; [by apply remove_NoDup|done]. }
  assert (384%Z ∉ take 8 trimmed) as Htake
    by (intros H%take_elem_of; done).
  destruct (bool_decide (lowest ∈ take 8 trimmed)); [done|].
  apply not_elem_of_cons. split; [|done]. intros <-. apply Hnot.
  destruct token_20_set as [|x l]; [done|].
  injection Hmin as Hmin. rewrite <- Hmin. apply foldr_min.
Qed.

Lemma token_384_needs_20_rows_witness :
  384%Z ∈ [64%Z; 128%Z; 192%Z; 256%Z; 320%Z; 384%Z; 448%Z; 512%Z; 576%Z;
           640%Z]
  ∧ 384%Z ∉ [64%Z; 128%Z; 192%Z; 256%Z; 320%Z; 448%Z; 512%Z; 640%Z].
Proof.
  split; [compute_done|].
  apply (token_384_needs_20_rows
           [64%Z; 128%Z; 192%Z; 256%Z; 320%Z; 384%Z; 448%Z; 512%Z; 576%Z;
            640%Z]
           [64%Z; 128%Z]).
  - reflexivity.
  - compute_done.
  - simpl. lia.
  - compute_done.
Defined.

(** The script stops with an [IndexError] exactly when no row has a
    label, and with the [ValueError] of [min] exactly when some row has a
    label but none is labelled 20%; otherwise it selects tokens. *)
Theorem selected_tokens_errors (token_values_sorted token_20_set : list Z) :
  (selected_tokens token_values_sorted token_20_set = inl IndexError
   ↔ token_values_sorted = [])
  ∧ (selected_tokens token_values_sorted token_20_set = inl ValueError
     ↔ token_values_sorted ≠ [] ∧ token_20_set = [])
  ∧ ((∃ selected,
        selected_tokens token_values_sorted token_20_set = inr selected)
     ↔ token_values_sorted ≠ [] ∧ token_20_set ≠ []).
Proof.
  destruct token_values_sorted as [|t0 tvs].
  { split; [done|]. split; [split; [done|by intros [? _]]|].
    split; [by intros [? ?]|by intros [? _]]. }
  unfold selected_tokens.
  destruct (comprehension_Ok (t0 :: tvs) (linspace (length (t0 :: tvs))))
    as (all_tokens & -> & _).
  { intros i. apply linspace_bound. simpl. lia. }
  destruct token_20_set as [|x l]; simpl.
  - split; [done|]. split; [done|].
    split; [by intros [? ?]|by intros [_ ?]].
  - split; [done|]. split; [split; [done|by intros [_ ?]]|].
    split; [done|by eexists].
Qed.

End TokenSelectionFacts.
